(** * email-task-list-agent: the Gmail tool and the task refresh workflow

    A shallow embedding of [src/mastra/tools/emailTool.ts] and
    [src/mastra/workflows/taskRefreshWorkflow.ts].

    - JavaScript values of type [any] (Gmail payloads, parsed model
      responses) are the inductive [jsval]; property access, truthiness and
      [for ... of] are written out with the exceptions they raise.
    - Text is a [string] of characters; ASCII text is represented exactly,
      other text by its UTF-8 bytes.
    - [taskStore] (a JavaScript [Map]) is a [gmap string Task.t]; the
      module-level [executionLogs] array is a list. A task object is
      shared between the map and the arrays the tool returns; every key
      has an object of its own and the code never reads a returned array
      after a later update, so the map holds task values.
    - Asynchronous code is sequential here: every [await] is a plain call.
      The outside world (Gmail, the language model, the clock) is an
      environment of oracles indexed by the number of calls made so far, so
      that successive calls may answer differently.
    - [console.log] and [console.error] have no effect on program state and
      are left out. *)

From Stdlib Require Import ZArith NArith List String Ascii Bool Lia.
From Stdlib Require Import DecimalString DecimalN.
From stdpp Require Import base option list strings gmap.

Set Warnings "-register-all".
Local Open Scope string_scope.
Local Open Scope list_scope.

(* ===================================================================== *)
(** ** JavaScript values and exceptions *)
(* ===================================================================== *)

Module Js.

(** Values as produced by [JSON.parse] and by the Gmail client, plus
    [undefined]. Numbers are the integers (fractions and NaN are not
    represented). *)
Inductive jsval : Type :=
| JUndef
| JNull
| JBool (b : bool)
| JNum (z : Z)
| JStr (s : string)
| JArr (items : list jsval)
| JObj (fields : list (string * jsval)).

(** What a [throw] carries: an [Error] object with its message, or some
    other value (for which [error instanceof Error] is false). *)
Inductive exn : Type :=
| ErrorObj (message : string)
| NonError.

Inductive result (A : Type) : Type :=
| Ok (a : A)
| Throw (e : exn).
Arguments Ok {A} a.
Arguments Throw {A} e.

Definition bindR {A B} (r : result A) (k : A -> result B) : result B :=
  match r with
  | Ok a => k a
  | Throw e => Throw e
  end.

(** [ToBoolean]. *)
Definition truthy (v : jsval) : bool :=
  match v with
  | JUndef | JNull => false
  | JBool b => b
  | JNum z => negb (z =? 0)%Z
  | JStr s => negb (String.eqb s "")
  | JArr _ | JObj _ => true
  end.

Fixpoint assoc (f : string) (fields : list (string * jsval)) : jsval :=
  match fields with
  | [] => JUndef
  | (k, v) :: rest => if String.eqb k f then v else assoc f rest
  end.

(** [v.f] for a data property [f]: a [TypeError] on [undefined] and
    [null], the field of an object, [undefined] on anything else. *)
Definition get (v : jsval) (f : string) : result jsval :=
  match v with
  | JUndef =>
      Throw (ErrorObj ("Cannot read properties of undefined (reading '" ++ f ++ "')"))
  | JNull =>
      Throw (ErrorObj ("Cannot read properties of null (reading '" ++ f ++ "')"))
  | JObj fields => Ok (assoc f fields)
  | _ => Ok JUndef
  end.

(** [a || b]. *)
Definition or_else (a b : jsval) : jsval := if truthy a then a else b.

(** [a || b] on strings. *)
Definition str_or (a b : string) : string :=
  if String.eqb a "" then b else a.

Fixpoint chars (s : string) : list jsval :=
  match s with
  | EmptyString => []
  | String c rest => JStr (String c EmptyString) :: chars rest
  end.

(** The sequence a [for ... of] loop runs over: the elements of an array,
    the characters of a string, a [TypeError] for anything else. *)
Definition iterate (v : jsval) : result (list jsval) :=
  match v with
  | JArr items => Ok items
  | JStr s => Ok (chars s)
  | _ => Throw (ErrorObj "object is not iterable")
  end.

(** Number of constructors; the recursion measure of the decoder. *)
Fixpoint jsize (v : jsval) : nat :=
  match v with
  | JArr items => S (list_sum (List.map jsize items))
  | JObj fields =>
      S (list_sum (List.map (fun p => S (jsize (snd p))) fields))
  | _ => 1
  end.

(** Decimal rendering of a non-negative integer, as a template literal
    prints it. *)
Definition show (n : N) : string :=
  NilEmpty.string_of_uint (N.to_uint n).

End Js.
Export Js.

(* ===================================================================== *)
(** ** Text operations *)
(* ===================================================================== *)

(** Only the letters A to Z change under [toLowerCase] here. The keywords
    the filter looks for are ASCII without the letter k, and no character
    outside ASCII lowercases to text containing one of them, so for keyword
    search this agrees with JavaScript's [toLowerCase] on the UTF-8 bytes. *)
Definition lowerChar (c : ascii) : ascii :=
  let n := nat_of_ascii c in
  if (65 <=? n)%nat && (n <=? 90)%nat then ascii_of_nat (n + 32) else c.

(** [s.toLowerCase()]. *)
Fixpoint toLowerCase (s : string) : string :=
  match s with
  | EmptyString => EmptyString
  | String c rest => String (lowerChar c) (toLowerCase rest)
  end.

(** [s.includes(k)]. *)
Fixpoint includes (s k : string) : bool :=
  String.prefix k s
  || match s with
     | EmptyString => false
     | String _ rest => includes rest k
     end.

(* ===================================================================== *)
(** ** Base64 ([Buffer.from(data, 'base64').toString('utf-8')]) *)
(* ===================================================================== *)

Module Base64.

(** Node reads the standard and the URL-safe alphabet. *)
Definition sextet (c : ascii) : option N :=
  let n := N_of_ascii c in
  if (65 <=? n)%N && (n <=? 90)%N then Some (n - 65)%N
  else if (97 <=? n)%N && (n <=? 122)%N then Some (n - 71)%N
  else if (48 <=? n)%N && (n <=? 57)%N then Some (n + 4)%N
  else if (n =? 43)%N || (n =? 45)%N then Some 62%N
  else if (n =? 47)%N || (n =? 95)%N then Some 63%N
  else None.

(** Characters outside the alphabet are skipped; the first [=] ends the
    input. *)
Fixpoint sextets (s : string) : list N :=
  match s with
  | EmptyString => []
  | String c rest =>
      if Ascii.eqb c "="%char then []
      else match sextet c with
           | Some v => v :: sextets rest
           | None => sextets rest
           end
  end.

Definition byte (n : N) : ascii := ascii_of_N (n mod 256).

Fixpoint bytes (l : list N) : string :=
  match l with
  | a :: b :: c :: d :: rest =>
      String (byte (a * 4 + b / 16))
        (String (byte ((b mod 16) * 16 + c / 4))
           (String (byte ((c mod 4) * 64 + d)) (bytes rest)))
  | [a; b; c] =>
      String (byte (a * 4 + b / 16))
        (String (byte ((b mod 16) * 16 + c / 4)) EmptyString)
  | [a; b] => String (byte (a * 4 + b / 16)) EmptyString
  | _ => EmptyString
  end.

Definition decode (s : string) : string := bytes (sextets s).

End Base64.

(** [Buffer.from(data, 'base64').toString('utf-8')] for a truthy [data].
    A string is decoded to its bytes, which stand for the text; byte
    sequences that are not UTF-8, which Node replaces by U+FFFD, are kept
    as they are. Numbers and booleans raise a [TypeError] in Node; arrays
    and array-like objects (which the Gmail client never puts in [data])
    are not modelled apart and raise here as well. *)
Definition bufferFromBase64 (data : jsval) : result string :=
  match data with
  | JStr s => Ok (Base64.decode s)
  | _ => Throw (ErrorObj "The first argument must be of type string")
  end.

(* ===================================================================== *)
(** ** Content decoder: [decodeEmailBody] *)
(* ===================================================================== *)

Definition isTextMime (mimeType : jsval) : bool :=
  match mimeType with
  | JStr s => String.eqb s "text/plain" || String.eqb s "text/html"
  | _ => false
  end.

(** The [for (const part of body.parts)] loop, over the recursive call
    [self]. [None] only passes on an exhausted budget of [self]. *)
Fixpoint decodeParts (self : jsval -> option (result string))
    (parts : list jsval) : option (result string) :=
  match parts with
  | [] => Some (Ok "")
  | part :: rest =>
      match get part "mimeType" with
      | Throw e => Some (Throw e)
      | Ok mimeType =>
          if isTextMime mimeType then
            match get part "body" with
            | Throw e => Some (Throw e)
            | Ok b => self b
            end
          else
            match get part "parts" with
            | Throw e => Some (Throw e)
            | Ok pp =>
                if truthy pp then
                  match self (JObj [("parts", pp)]) with
                  | None => None
                  | Some (Throw e) => Some (Throw e)
                  | Some (Ok decoded) =>
                      if negb (String.eqb decoded "") then Some (Ok decoded)
                      else decodeParts self rest
                  end
                else decodeParts self rest
            end
      end
  end.

(** [decodeEmailBody] calls itself on [part.body] and on a fresh object
    [{ parts: part.parts }]; the recursion is on a step budget. [None] is
    an exhausted budget, never a result of the source. *)
Fixpoint decodeEmailBody_fuel (fuel : nat) (body : jsval)
  : option (result string) :=
  match fuel with
  | O => None
  | S fuel' =>
      if negb (truthy body) then Some (Ok "")
      else
        match get body "data" with
        | Throw e => Some (Throw e)
        | Ok data =>
            if truthy data then Some (bufferFromBase64 data)
            else
              match get body "parts" with
              | Throw e => Some (Throw e)
              | Ok parts =>
                  if truthy parts then
                    match iterate parts with
                    | Throw e => Some (Throw e)
                    | Ok items => decodeParts (decodeEmailBody_fuel fuel') items
                    end
                  else Some (Ok "")
              end
        end
  end.

(** The budget [S (jsize body)] always suffices
    ([decodeEmailBody_fuel_enough] below), so the default branch is dead. *)
Definition decodeEmailBody (body : jsval) : result string :=
  match decodeEmailBody_fuel (S (jsize body)) body with
  | Some r => r
  | None => Ok ""
  end.

(* ===================================================================== *)
(** ** Eligibility filter: [isPromotionalEmail] *)
(* ===================================================================== *)

Module Header.
Record t : Type := mk { name : string; value : string }.
End Header.

(** [headers.find(p)?.value || dflt]. *)
Definition headerValue (p : Header.t -> bool) (headers : list Header.t)
    (dflt : string) : string :=
  match List.find p headers with
  | Some h => str_or (Header.value h) dflt
  | None => dflt
  end.

Definition promotionalKeywords : list string :=
  [ "unsubscribe"; "newsletter"; "promotion"; "sale"; "discount";
    "offer"; "deal"; "no-reply"; "noreply"; "automated" ].

Definition fromHeader (headers : list Header.t) : string :=
  headerValue (fun h => String.eqb (toLowerCase (Header.name h)) "from")
    headers "".

Definition subjectHeader (headers : list Header.t) : string :=
  headerValue (fun h => String.eqb (toLowerCase (Header.name h)) "subject")
    headers "".

Definition contentToCheck (headers : list Header.t) (body : string) : string :=
  toLowerCase (fromHeader headers ++ subjectHeader headers ++ body).

Definition isPromotionalEmail (headers : list Header.t) (body : string) : bool :=
  existsb (fun keyword => includes (contentToCheck headers body) keyword)
    promotionalKeywords.


(* ===================================================================== *)
(** ** Data model *)
(* ===================================================================== *)

(** The message record [getEmails] builds. *)
Module Email.
Record t : Type := mk {
  id : string;
  subject : string;
  from : string;
  date : string;
  body : string
}.
End Email.

Inductive Status : Type := pending | completed.

(** [interface Task]. The fields filled from the parsed model response hold
    whatever value the response had there. *)
Module Task.
Record t : Type := mk {
  id : string;
  emailId : string;
  subject : string;
  description : jsval;
  sender : string;
  priority : jsval;
  dueDate : jsval;
  status : Status;
  notes : list jsval;
  createdAt : N
}.

(** [task.status = s] *)
Definition setStatus (s : Status) (task : t) : t :=
  mk (id task) (emailId task) (subject task) (description task)
     (sender task) (priority task) (dueDate task) s (notes task)
     (createdAt task).

(** [task.notes.push(note)] *)
Definition pushNote (note : string) (task : t) : t :=
  mk (id task) (emailId task) (subject task) (description task)
     (sender task) (priority task) (dueDate task) (status task)
     (notes task ++ [JStr note]) (createdAt task).
End Task.

Module LogStatus.
Inductive t : Type := success | error.
End LogStatus.

(** [interface WorkflowExecutionLog] *)
Module Log.
Record t : Type := mk {
  timestamp : N;
  emailsChecked : nat;
  tasksExtracted : nat;
  status : LogStatus.t;
  error : option string
}.
End Log.

(** What [gmail.users.messages.get] returns for one message, as far as the
    code reads it: the identifier, [payload?.headers || []] and the payload
    object itself. *)
Module RawMessage.
Record t : Type := mk {
  id : string;
  headers : list Header.t;
  payload : jsval
}.
End RawMessage.

(* ===================================================================== *)
(** ** The outside world *)
(* ===================================================================== *)

(** One fetch from the Message Source: [messages.list] fails, or it lists
    messages, each of which [messages.get] then delivers ([Some]) or fails
    on ([None]). *)
Inductive FetchAnswer : Type :=
| ListFails
| Listed (messages : list (option RawMessage.t)).

(** [generateText] followed by [JSON.parse]: the model call rejects, the
    returned text is not JSON, or it parses to a value. *)
Inductive ModelOutcome : Type :=
| CallFails
| ParseFails
| Parsed (result : jsval).

(** The oracles. The first argument counts the earlier calls of the same
    kind since the process started. *)
Record Env : Type := mkEnv {
  gmail : nat -> nat -> FetchAnswer;       (* call number, maxResults *)
  model : nat -> Email.t -> ModelOutcome;  (* call number, message *)
  clock : nat -> N                         (* read number -> milliseconds *)
}.

(** Module-level state of the two source files, the oracle counters, and a
    record, in call order, of every message handed to
    [extractTasksFromEmail]. *)
Record World : Type := mkWorld {
  taskStore : gmap string Task.t;
  executionLogs : list Log.t;
  gmailCalls : nat;
  modelCalls : nat;
  clockReads : nat;
  submitted : list Email.t
}.

Definition setStore (st : gmap string Task.t) (w : World) : World :=
  mkWorld st (executionLogs w) (gmailCalls w) (modelCalls w) (clockReads w)
    (submitted w).

Definition M (A : Type) : Type := World -> result A * World.

Definition ret {A} (a : A) : M A := fun w => (Ok a, w).

Definition throw {A} (e : exn) : M A := fun w => (Throw e, w).

Definition bind {A B} (m : M A) (k : A -> M B) : M B :=
  fun w =>
    match m w with
    | (Ok a, w') => k a w'
    | (Throw e, w') => (Throw e, w')
    end.

(** [try { m } catch (error) { handler(error) }] *)
Definition tryCatch {A} (m : M A) (handler : exn -> M A) : M A :=
  fun w =>
    match m w with
    | (Ok a, w') => (Ok a, w')
    | (Throw e, w') => handler e w'
    end.

Definition liftR {A} (r : result A) : M A := fun w => (r, w).

Declare Scope m_scope.
Delimit Scope m_scope with m.
Notation "x <- m ;; k" := (bind m (fun x => k))
  (at level 100, m at next level, right associativity) : m_scope.
Notation "m ;;; k" := (bind m (fun _ => k))
  (at level 100, right associativity) : m_scope.

(** [Date.now()] and [new Date()] *)
Definition readClock (env : Env) : M N :=
  fun w =>
    (Ok (clock env (clockReads w)),
     mkWorld (taskStore w) (executionLogs w) (gmailCalls w) (modelCalls w)
       (S (clockReads w)) (submitted w)).

(* ===================================================================== *)
(** ** The tool: [emailTool.ts] *)
(* ===================================================================== *)

(** [v?.f] *)
Definition getOpt (v : jsval) (f : string) : jsval :=
  match v with
  | JObj fields => assoc f fields
  | _ => JUndef
  end.

(** The template literal [task-${email.id}-${Date.now()}] *)
Definition makeTaskId (emailId : string) (now : N) : string :=
  "task-" ++ emailId ++ "-" ++ show now.

(** The body of the loop of [getEmails] for one delivered message:
    [None] is the [continue] taken for a promotional message. The cut
    [body.substring(0, 2000)] counts characters of the text as it is
    represented here, which for ASCII text are the code units JavaScript
    counts. *)
Definition readMessage (m : RawMessage.t) : result (option Email.t) :=
  let headers := RawMessage.headers m in
  let subject :=
    headerValue (fun h => String.eqb (Header.name h) "Subject") headers
      "No Subject" in
  let from :=
    headerValue (fun h => String.eqb (Header.name h) "From") headers
      "Unknown" in
  let date :=
    headerValue (fun h => String.eqb (Header.name h) "Date") headers "" in
  bindR
    (decodeEmailBody
       (or_else (getOpt (RawMessage.payload m) "body") (RawMessage.payload m)))
    (fun body =>
       if isPromotionalEmail headers body then Ok None
       else Ok (Some (Email.mk (RawMessage.id m) subject from date
                        (String.substring 0 2000 body)))).

Fixpoint readMessages (messages : list (option RawMessage.t))
  : result (list Email.t) :=
  match messages with
  | [] => Ok []
  | None :: _ => Throw (ErrorObj "messages.get failed")
  | Some m :: rest =>
      bindR (readMessage m) (fun kept =>
      bindR (readMessages rest) (fun emailDetails =>
        Ok (match kept with
            | Some email => email :: emailDetails
            | None => emailDetails
            end)))
  end.

(** The [action] enumeration of the input schema. *)
Inductive Action : Type :=
| ActGetEmails | ActExtractTasks | ActMarkComplete | ActAddNote | ActListTasks.

Module ToolInput.
Record t : Type := mk {
  action : Action;
  maxResults : option nat;
  taskId : option string;
  note : option string
}.
End ToolInput.

(** The object an action returns; [emails] and [tasks] are present only in
    the results that carry them. *)
Module ToolResult.
Record t : Type := mk {
  success : bool;
  emails : option (list Email.t);
  tasks : option (list Task.t);
  message : string
}.
End ToolResult.

(** [!s] for an optional string argument *)
Definition missing (s : option string) : bool :=
  match s with
  | Some v => String.eqb v ""
  | None => true
  end.

Section Tool.

Variable env : Env.

Local Open Scope m_scope.

(** [getEmails]: every failure inside the [try] is replaced by one
    fixed error. *)
Definition getEmails (maxResults : nat) : M (list Email.t) :=
  fun w =>
    let w' := mkWorld (taskStore w) (executionLogs w) (S (gmailCalls w))
                (modelCalls w) (clockReads w) (submitted w) in
    match gmail env (gmailCalls w) maxResults with
    | ListFails => (Throw (ErrorObj "Failed to fetch emails from Gmail"), w')
    | Listed messages =>
        match readMessages messages with
        | Ok emailDetails => (Ok emailDetails, w')
        | Throw _ => (Throw (ErrorObj "Failed to fetch emails from Gmail"), w')
        end
    end.

(** [generateText] and [JSON.parse] on the prompt built from [email]. *)
Definition askModel (email : Email.t) : M ModelOutcome :=
  fun w =>
    (Ok (model env (modelCalls w) email),
     mkWorld (taskStore w) (executionLogs w) (gmailCalls w)
       (S (modelCalls w)) (clockReads w) (submitted w ++ [email])).

(** The part of [extractTasksFromEmail] between [JSON.parse] and the
    store: [Ok None] is [return null]; the property reads are pure, so
    they are collected before the two clock reads of the object literal. *)
Definition taskFields (parsed : jsval)
  : result (option (jsval * jsval * jsval * jsval)) :=
  bindR (get parsed "noTask") (fun noTask =>
    if truthy noTask then Ok None
    else
      bindR (get parsed "description") (fun description =>
      bindR (get parsed "priority") (fun priority =>
      bindR (get parsed "dueDate") (fun dueDate =>
      bindR (get parsed "context") (fun context =>
        Ok (Some (description,
                  or_else priority (JStr "medium"),
                  dueDate,
                  or_else context (JStr "")))))))).

Definition extractTasksFromEmail (email : Email.t) : M (option Task.t) :=
  outcome <- askModel email ;;
  match outcome with
  | CallFails | ParseFails => ret None          (* caught *)
  | Parsed parsed =>
      match taskFields parsed with
      | Throw _ => ret None                     (* caught *)
      | Ok None => ret None
      | Ok (Some (description, priority, dueDate, note0)) =>
          now <- readClock env ;;
          created <- readClock env ;;
          let task :=
            Task.mk (makeTaskId (Email.id email) now) (Email.id email)
              (Email.subject email) description (Email.from email)
              priority dueDate pending [note0] created in
          fun w =>
            (Ok (Some task),
             setStore (<[Task.id task := task]> (taskStore w)) w)
      end
  end.

Definition markTaskComplete (taskId : string) : M bool :=
  fun w =>
    match taskStore w !! taskId with
    | Some task =>
        (Ok true,
         setStore (<[taskId := Task.setStatus completed task]> (taskStore w)) w)
    | None => (Ok false, w)
    end.

Definition addTaskNote (taskId : string) (note : string) : M bool :=
  fun w =>
    match taskStore w !! taskId with
    | Some task =>
        (Ok true,
         setStore (<[taskId := Task.pushNote note task]> (taskStore w)) w)
    | None => (Ok false, w)
    end.

(** [Array.from(taskStore.values())]; the enumeration order of the map
    is the one of [map_to_list]. *)
Definition getAllTasks : M (list Task.t) :=
  fun w => (Ok ((map_to_list (taskStore w)).*2), w).

(** The loop of the [extractTasks] action. *)
Fixpoint extractAll (emails : list Email.t) : M (list Task.t) :=
  match emails with
  | [] => ret []
  | email :: rest =>
      task <- extractTasksFromEmail email ;;
      tasks <- extractAll rest ;;
      ret (match task with
           | Some t => t :: tasks
           | None => tasks
           end)
  end.

Definition emailTool_execute (input : ToolInput.t) : M ToolResult.t :=
  let maxResults := default 10 (ToolInput.maxResults input) in
  match ToolInput.action input with
  | ActGetEmails =>
      emails <- getEmails maxResults ;;
      ret (ToolResult.mk true (Some emails) None
             ("Retrieved " ++ show (N.of_nat (length emails))
                ++ " emails from inbox"))
  | ActExtractTasks =>
      emails <- getEmails maxResults ;;
      tasks <- extractAll emails ;;
      ret (ToolResult.mk true None (Some tasks)
             ("Extracted " ++ show (N.of_nat (length tasks))
                ++ " tasks from " ++ show (N.of_nat (length emails))
                ++ " emails"))
  | ActMarkComplete =>
      if missing (ToolInput.taskId input) then
        ret (ToolResult.mk false None None "Task ID is required")
      else
        ok <- markTaskComplete (default "" (ToolInput.taskId input)) ;;
        ret (ToolResult.mk ok None None
               (if ok then "Task marked as complete" else "Task not found"))
  | ActAddNote =>
      if missing (ToolInput.taskId input) || missing (ToolInput.note input)
      then ret (ToolResult.mk false None None "Task ID and note are required")
      else
        ok <- addTaskNote (default "" (ToolInput.taskId input))
                (default "" (ToolInput.note input)) ;;
        ret (ToolResult.mk ok None None
               (if ok then "Note added to task" else "Task not found"))
  | ActListTasks =>
      tasks <- getAllTasks ;;
      ret (ToolResult.mk true None (Some tasks)
             ("Found " ++ show (N.of_nat (length tasks)) ++ " tasks"))
  end%string.

End Tool.

(* ===================================================================== *)
(** ** The workflow: [taskRefreshWorkflow.ts] *)
(* ===================================================================== *)

(** The values earlier steps hand to later ones. *)
Module Context.
Record t : Type := mk {
  emails : option (list Email.t);
  emailCount : option nat;
  tasks : option (list Task.t);
  taskCount : option nat
}.
End Context.

(** What the last step returns. *)
Module Summary.
Record t : Type := mk {
  success : bool;
  totalTasks : nat;
  newTasks : option nat;
  message : string
}.
End Summary.

(** [${n}] for a count that may be [undefined] *)
Definition showCount (n : option nat) : string :=
  match n with
  | Some k => show (N.of_nat k)
  | None => "undefined"
  end.

(** [x.length] where [x] may be [undefined] *)
Definition lengthOf {A} (x : option (list A)) : result nat :=
  match x with
  | Some l => Ok (length l)
  | None =>
      Throw (ErrorObj "Cannot read properties of undefined (reading 'length')")
  end.

(** [error instanceof Error ? error.message : 'Unknown error'] *)
Definition errorText (e : exn) : string :=
  match e with
  | ErrorObj message => message
  | NonError => "Unknown error"
  end.

Definition logExecution (log : Log.t) : M unit :=
  fun w =>
    (Ok tt,
     mkWorld (taskStore w) (executionLogs w ++ [log]) (gmailCalls w)
       (modelCalls w) (clockReads w) (submitted w)).

Definition getExecutionLogs : M (list Log.t) :=
  fun w => (Ok (executionLogs w), w).

Section Workflow.

Variable env : Env.

(** The steps reach the tool only through [emailTool.execute]. *)
Variable execute : ToolInput.t -> M ToolResult.t.

Local Open Scope m_scope.

(** Step 1. The [catch] prints and rethrows. *)
Definition fetchEmailsStep : M (list Email.t * nat) :=
  tryCatch
    (result <- execute (ToolInput.mk ActGetEmails (Some 20) None None) ;;
     if ToolResult.success result then
       n <- liftR (lengthOf (ToolResult.emails result)) ;;
       ret (default [] (ToolResult.emails result), n)
     else throw (ErrorObj "Failed to fetch emails"))
    (fun error => throw error).

(** Step 2. Of the context only [emailCount] is read, for a console
    line. *)
Definition extractTasksStep (context : Context.t) : M (list Task.t * nat) :=
  tryCatch
    (result <- execute (ToolInput.mk ActExtractTasks (Some 20) None None) ;;
     if ToolResult.success result then
       n <- liftR (lengthOf (ToolResult.tasks result)) ;;
       ret (default [] (ToolResult.tasks result), n)
     else throw (ErrorObj "Failed to extract tasks"))
    (fun error => throw error).

(** Step 3. *)
Definition updateTaskListStep (context : Context.t) : M Summary.t :=
  let emailCount := Context.emailCount context in
  let taskCount := Context.taskCount context in
  tryCatch
    (listResult <- execute (ToolInput.mk ActListTasks None None None) ;;
     if ToolResult.success listResult then
       totalTasks <- liftR (lengthOf (ToolResult.tasks listResult)) ;;
       timestamp <- readClock env ;;
       logExecution
         (Log.mk timestamp (default 0 emailCount) (default 0 taskCount)
            LogStatus.success None) ;;;
       ret (Summary.mk true totalTasks taskCount
              ("Task refresh completed successfully. Extracted "
                 ++ showCount taskCount ++ " tasks from "
                 ++ showCount emailCount ++ " emails."))
     else throw (ErrorObj "Failed to verify task list update"))
    (fun error =>
       timestamp <- readClock env ;;
       logExecution
         (Log.mk timestamp (default 0 emailCount) 0 LogStatus.error
            (Some (errorText error))) ;;;
       throw error).

(** Modelled from the spec: the workflow engine behind
    [createWorkflow(...).step(fetchEmailsStep).step(extractTasksStep)
    .step(updateTaskListStep).commit()] is the library [@mastra/core], not
    code of this repository. As the specification describes a run (and as
    the steps read their [context]), the engine runs the three steps
    strictly in order, hands each step the values returned by the earlier
    ones, and ends the run at the first step that throws. *)
Definition runSteps : M Summary.t :=
  fetched <- fetchEmailsStep ;;
  let context1 :=
    Context.mk (Some (fst fetched)) (Some (snd fetched)) None None in
  extracted <- extractTasksStep context1 ;;
  let context2 :=
    Context.mk (Some (fst fetched)) (Some (snd fetched))
      (Some (fst extracted)) (Some (snd extracted)) in
  updateTaskListStep context2.

End Workflow.

(** [taskRefreshWorkflow.execute]: the steps over the real tool. *)
Definition taskRefreshWorkflow_execute (env : Env) : M Summary.t :=
  runSteps env (emailTool_execute env).

(** [triggerTaskRefresh]: its [catch] prints and rethrows. *)
Definition triggerTaskRefresh (env : Env) : M Summary.t :=
  tryCatch (taskRefreshWorkflow_execute env) (fun error => throw error).

(* ===================================================================== *)
(** ** Notions the statements below use *)
(* ===================================================================== *)

(** [s] contains [k] up to letter case: some substring of [s] lowercases to
    the lowercase of [k]. *)
Definition containsCI (s k : string) : Prop :=
  exists pre mid post,
    (s = pre ++ mid ++ post)%string /\ toLowerCase mid = toLowerCase k.

(** The decoder contract, read on the value the decoder is given (a body
    object with its [data], or a node with [parts]): the first decodable
    (non-empty) plain-text or HTML text of a depth-first traversal, the
    node's own data before its parts, earlier parts before later ones, the
    empty text when there is none; it fails on no input. The budget plays
    the role it plays in [decodeEmailBody_fuel]. *)
Fixpoint firstDecodableIn (self : jsval -> string) (parts : list jsval)
  : string :=
  match parts with
  | [] => ""
  | part :: rest =>
      let found :=
        if isTextMime (getOpt part "mimeType") then self (getOpt part "body")
        else self (JObj [("parts", getOpt part "parts")]) in
      if negb (String.eqb found "") then found
      else firstDecodableIn self rest
  end.

Fixpoint firstDecodable_fuel (fuel : nat) (node : jsval) : string :=
  match fuel with
  | O => ""
  | S fuel' =>
      let own :=
        match getOpt node "data" with
        | JStr data => Base64.decode data
        | _ => ""
        end in
      if negb (String.eqb own "") then own
      else
        match getOpt node "parts" with
        | JArr items => firstDecodableIn (firstDecodable_fuel fuel') items
        | _ => ""
        end
  end.

Definition firstDecodable (node : jsval) : string :=
  firstDecodable_fuel (S (jsize node)) node.

(** Payloads on which the traversal meets nothing the contract leaves
    open: every part in a part list is a value with properties (not [null]
    or [undefined]); [data] is absent, empty, or a string that decodes to
    non-empty text; [parts] is absent, a string, or a list; and a text
    part met before a result is found has a decodable body, unless
    nothing after it in its list is decodable either. *)
Fixpoint tidyParts (self : jsval -> bool) (spec : jsval -> string)
    (parts : list jsval) : bool :=
  match parts with
  | [] => true
  | part :: rest =>
      match part with
      | JUndef | JNull => false
      | _ =>
          if isTextMime (getOpt part "mimeType") then
            self (getOpt part "body")
            && (negb (String.eqb (spec (getOpt part "body")) "")
                || String.eqb (firstDecodableIn spec rest) "")
          else
            self (JObj [("parts", getOpt part "parts")])
            && (negb (String.eqb (spec (JObj [("parts", getOpt part "parts")])) "")
                || tidyParts self spec rest)
      end
  end.

Fixpoint tidy_fuel (fuel : nat) (node : jsval) : bool :=
  match fuel with
  | O => false
  | S fuel' =>
      match node with
      | JObj fields =>
          let partsOK :=
            match assoc "parts" fields with
            | JArr items =>
                tidyParts (tidy_fuel fuel') (firstDecodable_fuel fuel') items
            | JStr _ => true
            | other => negb (truthy other)
            end in
          match assoc "data" fields with
          | JStr data =>
              if String.eqb data "" then partsOK
              else negb (String.eqb (Base64.decode data) "")
          | other => negb (truthy other) && partsOK
          end
      | _ => true
      end
  end.

Definition tidy (node : jsval) : bool := tidy_fuel (S (jsize node)) node.

(** [Date.now()] and [new Date()] read the clock once each. *)
Definition advanceClock (k : nat) (w : World) : World :=
  mkWorld (taskStore w) (executionLogs w) (gmailCalls w) (modelCalls w)
    (k + clockReads w) (submitted w).

(** The world after one fetch from the Message Source. *)
Definition afterFetch (w : World) : World :=
  mkWorld (taskStore w) (executionLogs w) (S (gmailCalls w)) (modelCalls w)
    (clockReads w) (submitted w).

(** The world after the model was asked about [email]. *)
Definition afterAsk (email : Email.t) (w : World) : World :=
  mkWorld (taskStore w) (executionLogs w) (gmailCalls w) (S (modelCalls w))
    (clockReads w) (submitted w ++ [email]).

Definition fetchError : exn := ErrorObj "Failed to fetch emails from Gmail".

(** The world after a log entry was stamped and appended. *)
Definition afterLog (entry : Log.t) (w : World) : World :=
  mkWorld (taskStore w) (executionLogs w ++ [entry]) (gmailCalls w)
    (modelCalls w) (S (clockReads w)) (submitted w).

(** The task [extractTasksFromEmail] builds in world [w] from a parsed
    answer that is not a no-task marker. *)
Definition builtTask (env : Env) (email : Email.t) (w : World)
    (parsed : jsval) : Task.t :=
  Task.mk (makeTaskId (Email.id email) (clock env (clockReads w)))
    (Email.id email) (Email.subject email) (getOpt parsed "description")
    (Email.from email) (or_else (getOpt parsed "priority") (JStr "medium"))
    (getOpt parsed "dueDate") pending
    [or_else (getOpt parsed "context") (JStr "")]
    (clock env (S (clockReads w))).

Definition extractTasksInput (maxResults : option nat) : ToolInput.t :=
  ToolInput.mk ActExtractTasks maxResults None None.

(** Three calls of [addTaskNote] in a row. *)
Definition addThreeNotes (taskId n1 n2 n3 : string) : M (bool * bool * bool) :=
  (r1 <- addTaskNote taskId n1 ;;
   r2 <- addTaskNote taskId n2 ;;
   r3 <- addTaskNote taskId n3 ;;
   ret (r1, r2, r3))%m.

(** Two calls of [markTaskComplete] in a row. *)
Definition markTwice (taskId : string) : M (bool * bool) :=
  (r1 <- markTaskComplete taskId ;;
   r2 <- markTaskComplete taskId ;;
   ret (r1, r2))%m.

Definition listTasksInput : ToolInput.t :=
  ToolInput.mk ActListTasks None None None.

(* ===================================================================== *)
(** ** Concrete inboxes, model answers and tools *)
(* ===================================================================== *)

Module Scenario.

Definition world0 : World := mkWorld ∅ [] 0 0 0 [].

Definition textPart (mime data : string) : jsval :=
  JObj [("mimeType", JStr mime);
        ("body", JObj [("size", JNum 1); ("data", JStr data)])].

Definition emptyPart (mime : string) : jsval :=
  JObj [("mimeType", JStr mime); ("body", JObj [("size", JNum 0)])].

(** A multipart/alternative tree whose plain-text part carries no data
    and whose HTML part carries ["<b>hi</b>"]. *)
Definition emptyPlainThenHtml : jsval :=
  JObj [("mimeType", JStr "multipart/alternative");
        ("parts", JArr [emptyPart "text/plain";
                        textPart "text/html" "PGI+aGk8L2I+"])].

(** The same two parts one level down, inside a container part. *)
Definition nestedEmptyPlainThenHtml : jsval :=
  JObj [("mimeType", JStr "multipart/mixed");
        ("parts",
         JArr [JObj [("mimeType", JStr "multipart/alternative");
                     ("parts", JArr [emptyPart "text/plain"])];
               textPart "text/html" "PGI+aGk8L2I+"])].

(** A multipart message the way Gmail delivers it: the container has a
    body object of size 0. *)
Definition gmailMultipart : jsval :=
  JObj [("mimeType", JStr "multipart/alternative");
        ("body", JObj [("size", JNum 0)]);
        ("parts", JArr [textPart "text/plain" "aGk="])].

Definition simplePayload (data : string) : jsval :=
  JObj [("mimeType", JStr "text/plain");
        ("body", JObj [("size", JNum 1); ("data", JStr data)])].

Definition headersOf (from subject : string) : list Header.t :=
  [Header.mk "From" from; Header.mk "Subject" subject;
   Header.mk "Date" "Mon, 2 Nov 2026 09:00:00 +0000"].

(** A promotional message, a request, and a thank-you note. *)
Definition msgA : RawMessage.t :=
  RawMessage.mk "A" (headersOf "news@shop.example" "Big sale this week")
    (simplePayload "U2F2ZSAyMCUgdG9kYXk=").

Definition msgB : RawMessage.t :=
  RawMessage.mk "B" (headersOf "alice@example.com" "Quarterly report")
    (simplePayload "UGxlYXNlIHNlbmQgdGhlIHJlcG9ydCBieSBGcmlkYXku").

Definition msgC : RawMessage.t :=
  RawMessage.mk "C" (headersOf "bob@example.com" "Lunch")
    (simplePayload "VGhhbmtzIGZvciBsdW5jaCB5ZXN0ZXJkYXku").

Definition mailB : Email.t :=
  Email.mk "B" "Quarterly report" "alice@example.com"
    "Mon, 2 Nov 2026 09:00:00 +0000" "Please send the report by Friday.".

Definition mailC : Email.t :=
  Email.mk "C" "Lunch" "bob@example.com"
    "Mon, 2 Nov 2026 09:00:00 +0000" "Thanks for lunch yesterday.".

Definition answerTask : jsval :=
  JObj [("description", JStr "Send the quarterly report");
        ("priority", JStr "high");
        ("dueDate", JStr "2026-11-06");
        ("context", JStr "Requested by Alice")].

Definition answerNoTask : jsval := JObj [("noTask", JBool true)].

(** The model finds a task in message B and none elsewhere. *)
Definition modelB (_ : nat) (email : Email.t) : ModelOutcome :=
  if String.eqb (Email.id email) "B" then Parsed answerTask
  else Parsed answerNoTask.

Definition ticking (n : nat) : N := (1700000000000 + N.of_nat n)%N.

(** The inbox holds A, B and C throughout. *)
Definition envABC : Env :=
  mkEnv (fun _ _ => Listed [Some msgA; Some msgB; Some msgC]) modelB ticking.

(** Message C arrives between the first and the second fetch. *)
Definition envGrowing : Env :=
  mkEnv (fun n _ =>
           match n with
           | O => Listed [Some msgB]
           | S _ => Listed [Some msgB; Some msgC]
           end)
    modelB ticking.

(** The Message Source is down. *)
Definition envDown : Env := mkEnv (fun _ _ => ListFails) modelB ticking.

(** The clock does not advance between two reads. *)
Definition envFrozen : Env :=
  mkEnv (fun _ _ => Listed [Some msgB]) modelB (fun _ => 1700000000000%N).

(** The model answers with [{}]: valid JSON, none of the requested
    fields. *)
Definition envEmptyObject : Env :=
  mkEnv (fun _ _ => Listed [Some msgB; Some msgC])
    (fun _ _ => Parsed (JObj [])) ticking.

(** The model call fails for B, the answer for C is a task. *)
Definition envFailThenTask : Env :=
  mkEnv (fun _ _ => Listed [Some msgB; Some msgC])
    (fun _ email =>
       if String.eqb (Email.id email) "B" then CallFails
       else Parsed answerTask)
    ticking.


Definition taskOfB (now created : N) : Task.t :=
  Task.mk (makeTaskId "B" now) "B" "Quarterly report"
    (JStr "Send the quarterly report") "alice@example.com" (JStr "high")
    (JStr "2026-11-06") pending [JStr "Requested by Alice"] created.

Definition worldWithB : World :=
  mkWorld {[ makeTaskId "B" 5 := taskOfB 5 6 ]} [] 0 0 0 [].

End Scenario.

(* ===================================================================== *)
(** ** Notions for the properties beyond the claims *)
(* ===================================================================== *)

(** Payloads shaped as the Gmail schema shapes them: every element of a
    part list is a value with properties (not [null] or [undefined]),
    [data] is absent, falsy or a string, [parts] is absent, falsy, a string
    or a list. Text parts are followed into their body, other parts into
    their parts, as the decoder does. *)
Fixpoint wellShapedParts (self : jsval -> bool) (parts : list jsval) : bool :=
  match parts with
  | [] => true
  | part :: rest =>
      match part with
      | JUndef | JNull => false
      | _ =>
          (if isTextMime (getOpt part "mimeType")
           then self (getOpt part "body")
           else self (JObj [("parts", getOpt part "parts")]))
          && wellShapedParts self rest
      end
  end.

Fixpoint wellShaped_fuel (fuel : nat) (node : jsval) : bool :=
  match fuel with
  | O => false
  | S fuel' =>
      match node with
      | JObj fields =>
          let partsOK :=
            match assoc "parts" fields with
            | JArr items => wellShapedParts (wellShaped_fuel fuel') items
            | JStr _ => true
            | other => negb (truthy other)
            end in
          match assoc "data" fields with
          | JStr data => if String.eqb data "" then partsOK else true
          | other => negb (truthy other) && partsOK
          end
      | _ => true
      end
  end.

Definition wellShaped (node : jsval) : bool :=
  wellShaped_fuel (S (jsize node)) node.

(** The answers [extractTasksFromEmail] builds a task from: text that
    parses to a value other than [null] whose [noTask] is not truthy. *)
Definition usableAnswer (outcome : ModelOutcome) : option jsval :=
  match outcome with
  | Parsed JUndef | Parsed JNull => None
  | Parsed parsed =>
      if truthy (getOpt parsed "noTask") then None else Some parsed
  | CallFails | ParseFails => None
  end.

(** Every key of the store is the identifier of the task it maps to. *)
Definition storeKeyed (st : gmap string Task.t) : Prop :=
  forall key task, st !! key = Some task -> Task.id task = key.

(** What may happen to a stored task: nothing but a status that moves to
    completed and notes that grow at the end. *)
Definition evolves (t t' : Task.t) : Prop :=
  Task.id t' = Task.id t /\
  Task.emailId t' = Task.emailId t /\
  Task.subject t' = Task.subject t /\
  Task.description t' = Task.description t /\
  Task.sender t' = Task.sender t /\
  Task.priority t' = Task.priority t /\
  Task.dueDate t' = Task.dueDate t /\
  Task.createdAt t' = Task.createdAt t /\
  (Task.status t = completed -> Task.status t' = completed) /\
  Task.notes t `prefix_of` Task.notes t'.

(** [markTaskComplete] followed by [addTaskNote], and the other way
    round. *)
Definition markThenNote (id1 id2 note : string) : M (bool * bool) :=
  (marked <- markTaskComplete id1 ;;
   noted <- addTaskNote id2 note ;;
   ret (marked, noted))%m.

Definition noteThenMark (id1 id2 note : string) : M (bool * bool) :=
  (noted <- addTaskNote id2 note ;;
   marked <- markTaskComplete id1 ;;
   ret (marked, noted))%m.

Definition getEmailsInput (maxResults : option nat) : ToolInput.t :=
  ToolInput.mk ActGetEmails maxResults None None.

Definition addNoteInput (taskId note : option string) : ToolInput.t :=
  ToolInput.mk ActAddNote None taskId note.

Definition markCompleteInput (taskId : option string) : ToolInput.t :=
  ToolInput.mk ActMarkComplete None taskId None.










(** More concrete inputs. *)
Module Cases.

(** A message without Subject and From headers whose plain-text part says
    "hi". *)
Definition bareMessage : RawMessage.t :=
  RawMessage.mk "D" [Header.mk "Date" "Mon, 2 Nov 2026 09:00:00 +0000"]
    (Scenario.simplePayload "aGk=").

Definition bareMail : Email.t :=
  Email.mk "D" "No Subject" "Unknown" "Mon, 2 Nov 2026 09:00:00 +0000" "hi".

(** A multipart message as Gmail delivers it, with ordinary headers. *)
Definition multipartMessage : RawMessage.t :=
  RawMessage.mk "E" (Scenario.headersOf "carol@example.com" "Agenda")
    Scenario.gmailMultipart.

Definition doneB : Task.t :=
  Task.setStatus completed (Scenario.taskOfB 5 6).

(** The store holds B's task, already completed. *)
Definition worldDoneB : World :=
  mkWorld {[ makeTaskId "B" 5 := doneB ]} [] 0 0 0 [].






(** A message whose Subject and From headers are there but empty. *)
Definition emptyHeadersMessage : RawMessage.t :=
  RawMessage.mk "G"
    [Header.mk "Subject" ""; Header.mk "From" "";
     Header.mk "Date" "Mon, 2 Nov 2026 09:00:00 +0000"]
    (Scenario.simplePayload "aGk=").

Definition emptyHeadersMail : Email.t :=
  Email.mk "G" "No Subject" "Unknown" "Mon, 2 Nov 2026 09:00:00 +0000" "hi".

(** A tool that answers every action with [success: false]. *)
Definition refusingTool (_ : ToolInput.t) : M ToolResult.t :=
  ret (ToolResult.mk false None None "no").

End Cases.

(* ===================================================================== *)
(** * Facts *)
(* ===================================================================== *)

(** Unfolds the sequencing operators of [M]. *)
Ltac unfold_m := unfold bind, ret, throw, tryCatch, liftR.

(** ** Strings *)

Lemma string_app_cons (c : ascii) (s t : string) :
  (String c s ++ t = String c (s ++ t))%string.
Proof. reflexivity. Qed.

Lemma string_app_nil_r (s : string) : (s ++ "" = s)%string.
Proof.
  induction s as [|c s IH]; [reflexivity|].
  rewrite string_app_cons, IH. reflexivity.
Qed.

Lemma string_app_assoc (a b c : string) :
  ((a ++ b) ++ c = a ++ (b ++ c))%string.
Proof.
  induction a as [|x a IH]; [reflexivity|].
  rewrite !string_app_cons, IH. reflexivity.
Qed.

Lemma prefix_spec (k s : string) :
  String.prefix k s = true <-> exists post, (s = k ++ post)%string.
Proof.
  revert s. induction k as [|c k IH]; intros s.
  - split; [intros _; exists s; reflexivity | intros _; destruct s; reflexivity].
  - destruct s as [|d s]; simpl.
    + split; [discriminate | intros [post H]; discriminate H].
    + destruct (Ascii.ascii_dec c d) as [->|Hne].
      * rewrite IH. split; intros [post H]; exists post.
        -- rewrite string_app_cons, <- H. reflexivity.
        -- rewrite string_app_cons in H. congruence.
      * split; [discriminate|].
        intros [post H]. rewrite string_app_cons in H. congruence.
Qed.

Lemma includes_spec (s k : string) :
  includes s k = true <-> exists pre post, (s = pre ++ k ++ post)%string.
Proof.
  induction s as [|c s IH].
  - change (includes "" k) with (String.prefix k "" || false).
    rewrite orb_false_r, prefix_spec. split.
    + intros [post H]. exists "", post. exact H.
    + intros [pre [post H]]. destruct pre; [exists post; exact H|discriminate H].
  - change (includes (String c s) k)
      with (String.prefix k (String c s) || includes s k).
    rewrite orb_true_iff, IH, prefix_spec. split.
    + intros [[post H]|[pre [post H]]].
      * exists "", post. exact H.
      * exists (String c pre), post. rewrite string_app_cons, <- H. reflexivity.
    + intros [pre [post H]]. destruct pre as [|d pre].
      * left. exists post. exact H.
      * right. exists pre, post. rewrite string_app_cons in H. congruence.
Qed.

Lemma toLowerCase_app (a b : string) :
  (toLowerCase (a ++ b) = toLowerCase a ++ toLowerCase b)%string.
Proof.
  induction a as [|c a IH]; [reflexivity|].
  rewrite string_app_cons. simpl. rewrite IH. reflexivity.
Qed.

Lemma toLowerCase_split (s p q : string) :
  (toLowerCase s = p ++ q)%string ->
  exists a b, (s = a ++ b)%string /\ toLowerCase a = p /\ toLowerCase b = q.
Proof.
  revert s. induction p as [|c p IH]; intros s H.
  - exists "", s. auto.
  - destruct s as [|d s]; [discriminate H|].
    simpl in H. rewrite string_app_cons in H.
    injection H as Hc Hs. destruct (IH s Hs) as (a & b & -> & Ha & Hb).
    exists (String d a), b. rewrite string_app_cons. simpl.
    rewrite Hc, Ha. auto.
Qed.

Lemma includes_lower_containsCI (s k : string) :
  includes (toLowerCase s) (toLowerCase k) = true <-> containsCI s k.
Proof.
  rewrite includes_spec. unfold containsCI. split.
  - intros (pre & post & H).
    apply toLowerCase_split in H as (a & rest & -> & _ & H).
    apply toLowerCase_split in H as (mid & b & -> & Hmid & _).
    exists a, mid, b. auto.
  - intros (pre & mid & post & -> & Hmid).
    exists (toLowerCase pre), (toLowerCase post).
    rewrite !toLowerCase_app, Hmid. reflexivity.
Qed.

(** ** The eligibility filter *)

Lemma promotionalKeywords_lowercase (keyword : string) :
  In keyword promotionalKeywords -> toLowerCase keyword = keyword.
Proof.
  unfold promotionalKeywords. simpl.
  intros H. repeat (destruct H as [<-|H]; [reflexivity|]). destruct H.
Qed.

Lemma isPromotionalEmail_spec (headers : list Header.t) (body : string) :
  isPromotionalEmail headers body = true <->
  exists keyword,
    In keyword promotionalKeywords /\
    containsCI (fromHeader headers ++ subjectHeader headers ++ body) keyword.
Proof.
  unfold isPromotionalEmail, contentToCheck. rewrite existsb_exists.
  split; intros (keyword & Hin & H); exists keyword; split; try exact Hin.
  - apply includes_lower_containsCI.
    rewrite (promotionalKeywords_lowercase _ Hin). exact H.
  - apply includes_lower_containsCI in H.
    rewrite (promotionalKeywords_lowercase _ Hin) in H. exact H.
Qed.

Lemma containsCI_app_l (a b k : string) :
  containsCI a k -> containsCI (a ++ b) k.
Proof.
  intros (pre & mid & post & -> & H).
  exists pre, mid, (post ++ b)%string.
  rewrite !string_app_assoc. auto.
Qed.


Lemma readMessage_kept (m : RawMessage.t) (email : Email.t) :
  readMessage m = Ok (Some email) ->
  exists body,
    isPromotionalEmail (RawMessage.headers m) body = false /\
    Email.id email = RawMessage.id m /\
    Email.body email = String.substring 0 2000 body.
Proof.
  unfold readMessage. destruct (decodeEmailBody _) as [body|e]; simpl; [|discriminate].
  destruct (isPromotionalEmail _ body) eqn:Hp; [discriminate|].
  intros [= <-]. exists body. auto.
Qed.


(** ** Running the tool *)

Lemma getEmails_run (env : Env) (maxResults : nat) (w : World) :
  getEmails env maxResults w =
  (match gmail env (gmailCalls w) maxResults with
   | ListFails => Throw fetchError
   | Listed messages =>
       match readMessages messages with
       | Ok emails => Ok emails
       | Throw _ => Throw fetchError
       end
   end, afterFetch w).
Proof.
  unfold getEmails, afterFetch, fetchError.
  destruct (gmail env _ _) as [|messages]; [reflexivity|].
  destruct (readMessages messages); reflexivity.
Qed.

(** [extractTasksFromEmail] never throws; it records the message, asks the
    model once, and either leaves the store alone or inserts the task it
    returns. *)
Lemma extractTasksFromEmail_total (env : Env) (email : Email.t) (w : World) :
  exists (task : option Task.t) (w' : World),
    extractTasksFromEmail env email w = (Ok task, w') /\
    submitted w' = submitted w ++ [email] /\
    gmailCalls w' = gmailCalls w /\
    executionLogs w' = executionLogs w /\
    match task with
    | None => taskStore w' = taskStore w
    | Some t => taskStore w' = <[Task.id t := t]> (taskStore w)
    end.
Proof.
  unfold extractTasksFromEmail, askModel, readClock, setStore; unfold_m.
  destruct (model env (modelCalls w) email) as [| |parsed]; simpl;
    try (eexists None, _; split; [reflexivity|]; simpl; auto).
  destruct (taskFields parsed) as [[[[[description priority] dueDate] note0]|]|e];
    simpl.
  - eexists (Some _), _. split; [reflexivity|]. simpl. auto.
  - eexists None, _. split; [reflexivity|]. simpl. auto.
  - eexists None, _. split; [reflexivity|]. simpl. auto.
Qed.

(** The loop of the [extractTasks] action submits every message of the
    batch, in order, and never throws. *)
Lemma extractAll_total (env : Env) (emails : list Email.t) (w : World) :
  exists (tasks : list Task.t) (w' : World),
    extractAll env emails w = (Ok tasks, w') /\
    submitted w' = submitted w ++ emails /\
    gmailCalls w' = gmailCalls w /\
    executionLogs w' = executionLogs w.
Proof.
  revert w. induction emails as [|email rest IH]; intros w.
  - exists [], w. simpl. rewrite app_nil_r. auto.
  - destruct (extractTasksFromEmail_total env email w)
      as (task & w1 & H1 & Hs1 & Hg1 & Hl1 & _).
    destruct (IH w1) as (tasks & w2 & H2 & Hs2 & Hg2 & Hl2).
    exists (match task with Some t => t :: tasks | None => tasks end), w2.
    split.
    + simpl. unfold bind. rewrite H1, H2. reflexivity.
    + rewrite Hs2, Hs1, Hg2, Hg1, Hl2, Hl1, <- app_assoc. auto.
Qed.

Lemma extractTasks_action_fails (env : Env) (maxResults : option nat)
    (w : World) :
  (forall messages emails,
      gmail env (gmailCalls w) (default 10 maxResults) = Listed messages ->
      readMessages messages <> Ok emails) ->
  emailTool_execute env (extractTasksInput maxResults) w
  = (Throw fetchError, afterFetch w).
Proof.
  intros Hbad. unfold emailTool_execute, extractTasksInput. simpl.
  unfold bind. rewrite getEmails_run.
  destruct (gmail env _ _) as [|messages] eqn:Hg; [reflexivity|].
  destruct (readMessages messages) as [emails|e] eqn:Hr; [|reflexivity].
  destruct (Hbad messages emails eq_refl). exact Hr.
Qed.

Lemma extractTasks_action_ok (env : Env) (maxResults : option nat)
    (w : World) (messages : list (option RawMessage.t))
    (emails : list Email.t) :
  gmail env (gmailCalls w) (default 10 maxResults) = Listed messages ->
  readMessages messages = Ok emails ->
  exists (tasks : list Task.t) (text : string) (w' : World),
    emailTool_execute env (extractTasksInput maxResults) w
    = (Ok (ToolResult.mk true None (Some tasks) text), w') /\
    extractAll env emails (afterFetch w) = (Ok tasks, w') /\
    submitted w' = submitted w ++ emails /\
    gmailCalls w' = S (gmailCalls w) /\
    executionLogs w' = executionLogs w.
Proof.
  intros Hg Hr.
  destruct (extractAll_total env emails (afterFetch w))
    as (tasks & w' & Hx & Hs & Hc & Hl).
  exists tasks. eexists. exists w'. split; [|auto].
  unfold emailTool_execute, extractTasksInput. simpl.
  unfold bind. rewrite getEmails_run, Hg, Hr, Hx. reflexivity.
Qed.

(** ** The sender field of a kept message *)



(** ** The task store *)

Lemma markTaskComplete_present (w : World) (taskId : string) (task : Task.t) :
  taskStore w !! taskId = Some task ->
  markTaskComplete taskId w
  = (Ok true,
     setStore (<[taskId := Task.setStatus completed task]> (taskStore w)) w).
Proof. intros H. unfold markTaskComplete. rewrite H. reflexivity. Qed.

Lemma addTaskNote_present (w : World) (taskId note : string) (task : Task.t) :
  taskStore w !! taskId = Some task ->
  addTaskNote taskId note w
  = (Ok true,
     setStore (<[taskId := Task.pushNote note task]> (taskStore w)) w).
Proof. intros H. unfold addTaskNote. rewrite H. reflexivity. Qed.

Lemma markTaskComplete_absent (w : World) (taskId : string) :
  taskStore w !! taskId = None -> markTaskComplete taskId w = (Ok false, w).
Proof. intros H. unfold markTaskComplete. rewrite H. reflexivity. Qed.

Lemma addTaskNote_absent (w : World) (taskId note : string) :
  taskStore w !! taskId = None -> addTaskNote taskId note w = (Ok false, w).
Proof. intros H. unfold addTaskNote. rewrite H. reflexivity. Qed.

Lemma setStore_same (w : World) : setStore (taskStore w) w = w.
Proof. destruct w. reflexivity. Qed.

Lemma setStore_twice (a b : gmap string Task.t) (w : World) :
  setStore a (setStore b w) = setStore a w.
Proof. reflexivity. Qed.

Lemma setStatus_completed_twice (task : Task.t) :
  Task.setStatus completed (Task.setStatus completed task)
  = Task.setStatus completed task.
Proof. reflexivity. Qed.

Lemma setStatus_completed_id (task : Task.t) :
  Task.status task = completed -> Task.setStatus completed task = task.
Proof. destruct task. simpl. intros ->. reflexivity. Qed.

(** C8. On an id that is in the store [markTaskComplete] returns [true]
    and leaves that task completed, other tasks untouched; a second call
    returns [true] again and changes nothing, and on a task that is
    already completed the first call changes nothing either. On an id that
    is not in the store [markTaskComplete] and [addTaskNote] return [false]
    (a normal result, not an exception) and leave the whole state as it
    was. *)
Theorem markComplete_idempotent_and_unknown_id_safe
    (w : World) (taskId : string) :
  (forall task : Task.t,
      taskStore w !! taskId = Some task ->
      exists w1,
        markTaskComplete taskId w = (Ok true, w1) /\
        taskStore w1 !! taskId = Some (Task.setStatus completed task) /\
        Task.status (Task.setStatus completed task) = completed /\
        (forall other, other <> taskId ->
                       taskStore w1 !! other = taskStore w !! other) /\
        markTaskComplete taskId w1 = (Ok true, w1) /\
        markTwice taskId w = (Ok (true, true), w1) /\
        (Task.status task = completed -> w1 = w)) /\
  (taskStore w !! taskId = None ->
   markTaskComplete taskId w = (Ok false, w) /\
   forall note, addTaskNote taskId note w = (Ok false, w)).
Proof.
  split.
  - intros task Hin.
    set (w1 := setStore (<[taskId := Task.setStatus completed task]> (taskStore w)) w).
    assert (Hlook : taskStore w1 !! taskId = Some (Task.setStatus completed task))
      by apply lookup_insert_eq.
    assert (Hagain : markTaskComplete taskId w1 = (Ok true, w1)).
    { rewrite (markTaskComplete_present w1 taskId _ Hlook).
      rewrite setStatus_completed_twice. f_equal.
      rewrite (insert_id (taskStore w1) taskId _ Hlook). apply setStore_same. }
    exists w1. repeat split.
    + apply markTaskComplete_present. exact Hin.
    + exact Hlook.
    + intros other Hne. apply lookup_insert_ne. congruence.
    + exact Hagain.
    + unfold markTwice, bind.
      rewrite (markTaskComplete_present w taskId task Hin). fold w1.
      rewrite Hagain. reflexivity.
    + intros Hdone. unfold w1. rewrite (setStatus_completed_id task Hdone).
      rewrite (insert_id (taskStore w) taskId task Hin). apply setStore_same.
  - intros Hout. split.
    + apply markTaskComplete_absent. exact Hout.
    + intros note. apply addTaskNote_absent. exact Hout.
Qed.

Lemma markComplete_idempotent_and_unknown_id_safe_witness :
  (exists w1,
      markTaskComplete (makeTaskId "B" 5) Scenario.worldWithB = (Ok true, w1) /\
      taskStore w1 !! makeTaskId "B" 5
      = Some (Task.setStatus completed (Scenario.taskOfB 5 6)) /\
      Task.status (Task.setStatus completed (Scenario.taskOfB 5 6)) = completed /\
      (forall other, other <> makeTaskId "B" 5 ->
                     taskStore w1 !! other
                     = taskStore Scenario.worldWithB !! other) /\
      markTaskComplete (makeTaskId "B" 5) w1 = (Ok true, w1) /\
      markTwice (makeTaskId "B" 5) Scenario.worldWithB = (Ok (true, true), w1) /\
      (Task.status (Scenario.taskOfB 5 6) = completed ->
       w1 = Scenario.worldWithB)) /\
  (markTaskComplete "task-Z-1" Scenario.worldWithB
   = (Ok false, Scenario.worldWithB) /\
   forall note,
     addTaskNote "task-Z-1" note Scenario.worldWithB
     = (Ok false, Scenario.worldWithB)).
Proof.
  split.
  - apply (proj1 (markComplete_idempotent_and_unknown_id_safe
                    Scenario.worldWithB (makeTaskId "B" 5))).
    vm_compute. reflexivity.
  - apply (proj2 (markComplete_idempotent_and_unknown_id_safe
                    Scenario.worldWithB "task-Z-1")).
    vm_compute. reflexivity.
Defined.

(** C9. Three [addTaskNote] calls on a stored task all return [true]; the
    task's notes afterwards are the old notes followed by the three new
    ones in call order, three longer, with every old note still at its
    index; no other field of the task and no other task changes. *)
Theorem addNote_three_times_appends_in_order
    (w : World) (taskId n1 n2 n3 : string) (task : Task.t) :
  taskStore w !! taskId = Some task ->
  exists (w' : World) (task' : Task.t),
    addThreeNotes taskId n1 n2 n3 w = (Ok (true, true, true), w') /\
    taskStore w' !! taskId = Some task' /\
    Task.notes task' = Task.notes task ++ [JStr n1; JStr n2; JStr n3] /\
    length (Task.notes task') = length (Task.notes task) + 3 /\
    (forall i note, Task.notes task !! i = Some note ->
                    Task.notes task' !! i = Some note) /\
    task'
    = Task.mk (Task.id task) (Task.emailId task) (Task.subject task)
        (Task.description task) (Task.sender task) (Task.priority task)
        (Task.dueDate task) (Task.status task)
        (Task.notes task ++ [JStr n1; JStr n2; JStr n3])
        (Task.createdAt task) /\
    (forall other, other <> taskId ->
                   taskStore w' !! other = taskStore w !! other).
Proof.
  intros Hin.
  set (t1 := Task.pushNote n1 task).
  set (t2 := Task.pushNote n2 t1).
  set (t3 := Task.pushNote n3 t2).
  set (w1 := setStore (<[taskId := t1]> (taskStore w)) w).
  set (w2 := setStore (<[taskId := t2]> (taskStore w1)) w1).
  set (w3 := setStore (<[taskId := t3]> (taskStore w2)) w2).
  assert (H1 : taskStore w1 !! taskId = Some t1) by apply lookup_insert_eq.
  assert (H2 : taskStore w2 !! taskId = Some t2) by apply lookup_insert_eq.
  assert (Hnotes : Task.notes t3 = Task.notes task ++ [JStr n1; JStr n2; JStr n3]).
  { unfold t3, t2, t1. simpl. rewrite <- !app_assoc. reflexivity. }
  exists w3, t3. repeat split.
  - unfold addThreeNotes, bind.
    rewrite (addTaskNote_present w taskId n1 task Hin). fold t1 w1.
    rewrite (addTaskNote_present w1 taskId n2 t1 H1). fold t2 w2.
    rewrite (addTaskNote_present w2 taskId n3 t2 H2). reflexivity.
  - apply lookup_insert_eq.
  - exact Hnotes.
  - rewrite Hnotes, length_app. reflexivity.
  - intros i note Hi. rewrite Hnotes. apply lookup_app_l_Some. exact Hi.
  - unfold t3, t2, t1, Task.pushNote. simpl. rewrite <- !app_assoc. reflexivity.
  - intros other Hne. unfold w3, w2, w1. simpl.
    rewrite !lookup_insert_ne by congruence. reflexivity.
Qed.

Lemma addNote_three_times_appends_in_order_witness :
  exists (w' : World) (task' : Task.t),
    addThreeNotes (makeTaskId "B" 5) "called Alice" "draft ready" "sent"
      Scenario.worldWithB
    = (Ok (true, true, true), w') /\
    taskStore w' !! makeTaskId "B" 5 = Some task' /\
    Task.notes task'
    = Task.notes (Scenario.taskOfB 5 6)
        ++ [JStr "called Alice"; JStr "draft ready"; JStr "sent"] /\
    length (Task.notes task') = length (Task.notes (Scenario.taskOfB 5 6)) + 3 /\
    (forall i note, Task.notes (Scenario.taskOfB 5 6) !! i = Some note ->
                    Task.notes task' !! i = Some note) /\
    task'
    = Task.mk (Task.id (Scenario.taskOfB 5 6))
        (Task.emailId (Scenario.taskOfB 5 6))
        (Task.subject (Scenario.taskOfB 5 6))
        (Task.description (Scenario.taskOfB 5 6))
        (Task.sender (Scenario.taskOfB 5 6))
        (Task.priority (Scenario.taskOfB 5 6))
        (Task.dueDate (Scenario.taskOfB 5 6))
        (Task.status (Scenario.taskOfB 5 6))
        (Task.notes (Scenario.taskOfB 5 6)
           ++ [JStr "called Alice"; JStr "draft ready"; JStr "sent"])
        (Task.createdAt (Scenario.taskOfB 5 6)) /\
    (forall other, other <> makeTaskId "B" 5 ->
                   taskStore w' !! other
                   = taskStore Scenario.worldWithB !! other).
Proof.
  apply (addNote_three_times_appends_in_order Scenario.worldWithB
           (makeTaskId "B" 5) "called Alice" "draft ready" "sent"
           (Scenario.taskOfB 5 6)).
  vm_compute. reflexivity.
Defined.

(** ** Task identifiers *)

Lemma show_inj (a b : N) : show a = show b -> a = b.
Proof.
  unfold show. intros H.
  apply (f_equal NilEmpty.uint_of_string) in H.
  rewrite !NilEmpty.usu in H. injection H as H.
  apply (f_equal N.of_uint) in H.
  rewrite !DecimalN.Unsigned.of_to in H. exact H.
Qed.

Lemma digits_no_dash (d : Decimal.uint) (pre post : string) :
  NilEmpty.string_of_uint d <> (pre ++ String "-" post)%string.
Proof.
  revert pre. induction d; intros [|c pre] H; simpl in H;
    try discriminate H;
    rewrite string_app_cons in H; injection H as _ H; exact (IHd _ H).
Qed.

Lemma show_no_dash (n : N) (pre post : string) :
  show n <> (pre ++ String "-" post)%string.
Proof. apply digits_no_dash. Qed.

(** The text after the last dash determines how a dashed text splits. *)
Lemma split_at_last_dash (x x' d d' : string) :
  (forall pre post, d <> pre ++ String "-" post)%string ->
  (forall pre post, d' <> pre ++ String "-" post)%string ->
  (x ++ String "-" d = x' ++ String "-" d')%string ->
  x = x' /\ d = d'.
Proof.
  intros Hd Hd'. revert x'.
  induction x as [|c x IH]; intros [|c' x'] H.
  - injection H as H. auto.
  - rewrite string_app_cons in H. injection H as _ H.
    destruct (Hd x' d'). exact H.
  - rewrite string_app_cons in H. injection H as _ H.
    destruct (Hd' x d). symmetry. exact H.
  - rewrite !string_app_cons in H. injection H as -> H.
    destruct (IH x' H) as [-> ->]. auto.
Qed.

Lemma string_app_inv_head (a b c : string) :
  (a ++ b = a ++ c)%string -> b = c.
Proof.
  induction a as [|x a IH]; intros H; [exact H|].
  rewrite !string_app_cons in H. injection H as H. auto.
Qed.

Lemma makeTaskId_inj (emailId emailId' : string) (now now' : N) :
  makeTaskId emailId now = makeTaskId emailId' now' ->
  emailId = emailId' /\ now = now'.
Proof.
  unfold makeTaskId. intros H.
  apply string_app_inv_head in H.
  change ("-" ++ show now)%string with (String "-" (show now)) in H.
  change ("-" ++ show now')%string with (String "-" (show now')) in H.
  apply split_at_last_dash in H as [-> H]; try apply show_no_dash.
  split; [reflexivity|]. apply show_inj. exact H.
Qed.

(** ** The task extractor *)

Lemma get_getOpt (v x : jsval) (f : string) :
  get v f = Ok x -> x = getOpt v f.
Proof. destruct v; simpl; congruence. Qed.

Lemma taskFields_some (parsed description priority dueDate note0 : jsval) :
  taskFields parsed = Ok (Some (description, priority, dueDate, note0)) ->
  truthy (getOpt parsed "noTask") = false /\
  description = getOpt parsed "description" /\
  priority = or_else (getOpt parsed "priority") (JStr "medium") /\
  dueDate = getOpt parsed "dueDate" /\
  note0 = or_else (getOpt parsed "context") (JStr "").
Proof.
  unfold taskFields.
  destruct (get parsed "noTask") as [noTask|e] eqn:H0; simpl; [|discriminate].
  apply get_getOpt in H0 as ->.
  destruct (truthy (getOpt parsed "noTask")); [discriminate|].
  destruct (get parsed "description") as [x1|e] eqn:H1; simpl; [|discriminate].
  destruct (get parsed "priority") as [x2|e] eqn:H2; simpl; [|discriminate].
  destruct (get parsed "dueDate") as [x3|e] eqn:H3; simpl; [|discriminate].
  destruct (get parsed "context") as [x4|e] eqn:H4; simpl; [|discriminate].
  apply get_getOpt in H1 as ->, H2 as ->, H3 as ->, H4 as ->.
  intros [= <- <- <- <-]. auto.
Qed.

Lemma extractTasksFromEmail_some (env : Env) (email : Email.t)
    (w w' : World) (task : Task.t) :
  extractTasksFromEmail env email w = (Ok (Some task), w') ->
  exists parsed,
    model env (modelCalls w) email = Parsed parsed /\
    truthy (getOpt parsed "noTask") = false /\
    task = Task.mk (makeTaskId (Email.id email) (clock env (clockReads w)))
             (Email.id email) (Email.subject email)
             (getOpt parsed "description") (Email.from email)
             (or_else (getOpt parsed "priority") (JStr "medium"))
             (getOpt parsed "dueDate") pending
             [or_else (getOpt parsed "context") (JStr "")]
             (clock env (S (clockReads w))) /\
    w' = setStore (<[Task.id task := task]> (taskStore w))
           (advanceClock 2 (afterAsk email w)).
Proof.
  unfold extractTasksFromEmail, askModel, readClock; unfold_m.
  destruct (model env (modelCalls w) email) as [| |parsed]; simpl;
    try discriminate.
  destruct (taskFields parsed)
    as [[[[[description priority] dueDate] note0]|]|e] eqn:Hf; simpl;
    try discriminate.
  apply taskFields_some in Hf as (Hno & -> & -> & -> & ->).
  intros [= <- <-]. exists parsed. auto.
Qed.

Lemma extractTasksFromEmail_none (env : Env) (email : Email.t) (w : World) :
  model env (modelCalls w) email = CallFails \/
  model env (modelCalls w) email = ParseFails \/
  model env (modelCalls w) email = Parsed JNull ->
  extractTasksFromEmail env email w = (Ok None, afterAsk email w).
Proof.
  unfold extractTasksFromEmail, askModel, afterAsk; unfold_m.
  intros [H|[H|H]]; rewrite H; reflexivity.
Qed.

(** C6, as the code has it. A task built by [extractTasksFromEmail] is
    pending; its priority is the response's, "medium" when the response
    has none (or a falsy one); its notes are the single element
    [context || ''], that is the response's context when truthy and the
    empty string otherwise; its identifier is
    "task-" ++ message id ++ "-" ++ clock reading, which no other pair of
    message id and clock reading produces, so it is new to the store
    whenever every stored key was built from another message or at another
    clock reading; and the store holds the task under that identifier when
    the call returns. *)
Theorem extracted_task_shape_and_identifier
    (env : Env) (email : Email.t) (w w' : World) (task : Task.t) :
  extractTasksFromEmail env email w = (Ok (Some task), w') ->
  exists parsed,
    model env (modelCalls w) email = Parsed parsed /\
    Task.status task = pending /\
    Task.priority task = or_else (getOpt parsed "priority") (JStr "medium") /\
    (getOpt parsed "priority" = JUndef -> Task.priority task = JStr "medium") /\
    (truthy (getOpt parsed "context") = true ->
     Task.notes task = [getOpt parsed "context"]) /\
    (truthy (getOpt parsed "context") = false ->
     Task.notes task = [JStr ""]) /\
    length (Task.notes task) = 1 /\
    Task.emailId task = Email.id email /\
    Task.id task = makeTaskId (Email.id email) (clock env (clockReads w)) /\
    (forall emailId now,
        makeTaskId emailId now = Task.id task ->
        emailId = Email.id email /\ now = clock env (clockReads w)) /\
    ((forall key, is_Some (taskStore w !! key) ->
                  exists emailId now,
                    key = makeTaskId emailId now /\
                    (emailId <> Email.id email \/
                     now <> clock env (clockReads w))) ->
     taskStore w !! Task.id task = None) /\
    taskStore w' = <[Task.id task := task]> (taskStore w) /\
    taskStore w' !! Task.id task = Some task.
Proof.
  intros H.
  destruct (extractTasksFromEmail_some env email w w' task H)
    as (parsed & Hm & _ & Ht & Hw).
  assert (Hid : Task.id task
                = makeTaskId (Email.id email) (clock env (clockReads w)))
    by (rewrite Ht; reflexivity).
  exists parsed.
  split; [exact Hm|].
  split; [rewrite Ht; reflexivity|].
  split; [rewrite Ht; reflexivity|].
  split; [intros Hp; rewrite Ht; simpl; rewrite Hp; reflexivity|].
  split; [intros Hc; rewrite Ht; simpl; unfold or_else; rewrite Hc;
          reflexivity|].
  split; [intros Hc; rewrite Ht; simpl; unfold or_else; rewrite Hc;
          reflexivity|].
  split; [rewrite Ht; reflexivity|].
  split; [rewrite Ht; reflexivity|].
  split; [exact Hid|].
  split.
  { intros emailId now Hk. rewrite Hid in Hk.
    apply makeTaskId_inj in Hk. exact Hk. }
  split.
  { intros Hkeys.
    destruct (taskStore w !! Task.id task) as [old|] eqn:Hold; [|reflexivity].
    destruct (Hkeys (Task.id task)) as (emailId & now & Hk & Hne).
    { rewrite Hold. eauto. }
    rewrite Hid in Hk. apply makeTaskId_inj in Hk as [<- <-].
    destruct Hne as [Hne|Hne]; destruct Hne; reflexivity. }
  split; [rewrite Hw; reflexivity|].
  rewrite Hw. apply lookup_insert_eq.
Qed.

Lemma extracted_task_shape_and_identifier_witness :
  exists parsed,
    model Scenario.envABC (modelCalls Scenario.world0) Scenario.mailB
    = Parsed parsed /\
    Task.status (Scenario.taskOfB 1700000000000 1700000000001) = pending /\
    Task.priority (Scenario.taskOfB 1700000000000 1700000000001)
    = or_else (getOpt parsed "priority") (JStr "medium") /\
    (getOpt parsed "priority" = JUndef ->
     Task.priority (Scenario.taskOfB 1700000000000 1700000000001)
     = JStr "medium") /\
    (truthy (getOpt parsed "context") = true ->
     Task.notes (Scenario.taskOfB 1700000000000 1700000000001)
     = [getOpt parsed "context"]) /\
    (truthy (getOpt parsed "context") = false ->
     Task.notes (Scenario.taskOfB 1700000000000 1700000000001) = [JStr ""]) /\
    length (Task.notes (Scenario.taskOfB 1700000000000 1700000000001)) = 1 /\
    Task.emailId (Scenario.taskOfB 1700000000000 1700000000001)
    = Email.id Scenario.mailB /\
    Task.id (Scenario.taskOfB 1700000000000 1700000000001)
    = makeTaskId (Email.id Scenario.mailB)
        (clock Scenario.envABC (clockReads Scenario.world0)) /\
    (forall emailId now,
        makeTaskId emailId now
        = Task.id (Scenario.taskOfB 1700000000000 1700000000001) ->
        emailId = Email.id Scenario.mailB /\
        now = clock Scenario.envABC (clockReads Scenario.world0)) /\
    ((forall key, is_Some (taskStore Scenario.world0 !! key) ->
                  exists emailId now,
                    key = makeTaskId emailId now /\
                    (emailId <> Email.id Scenario.mailB \/
                     now <> clock Scenario.envABC (clockReads Scenario.world0))) ->
     taskStore Scenario.world0
       !! Task.id (Scenario.taskOfB 1700000000000 1700000000001) = None) /\
    taskStore
      (snd (extractTasksFromEmail Scenario.envABC Scenario.mailB Scenario.world0))
    = <[Task.id (Scenario.taskOfB 1700000000000 1700000000001)
        := Scenario.taskOfB 1700000000000 1700000000001]>
        (taskStore Scenario.world0) /\
    taskStore
      (snd (extractTasksFromEmail Scenario.envABC Scenario.mailB Scenario.world0))
      !! Task.id (Scenario.taskOfB 1700000000000 1700000000001)
    = Some (Scenario.taskOfB 1700000000000 1700000000001).
Proof.
  apply (extracted_task_shape_and_identifier Scenario.envABC Scenario.mailB
           Scenario.world0).
  vm_compute. reflexivity.
Defined.

(** C6, refuted as the specification states it: with a clock that shows the same
    millisecond twice, extracting from message B a second time builds a
    task whose identifier is already a key of the store; the first task is
    replaced and the store still holds one task. *)
Lemma task_identifier_can_repeat :
  let first :=
    extractTasksFromEmail Scenario.envFrozen Scenario.mailB Scenario.world0 in
  let second :=
    extractTasksFromEmail Scenario.envFrozen Scenario.mailB (snd first) in
  let task := Scenario.taskOfB 1700000000000 1700000000000 in
  fst first = Ok (Some task) /\
  fst second = Ok (Some task) /\
  taskStore (snd first) !! Task.id task = Some task /\
  size (taskStore (snd second)) = 1.
Proof. vm_compute. repeat split; reflexivity. Qed.

(** C7, as the code has it. When the model call fails, the response is not
    JSON, or it is the JSON [null], [extractTasksFromEmail] returns no
    task, does not throw, and leaves the store as it was; the loop of the
    [extractTasks] action then goes on with the remaining messages exactly
    as if it had started after that message. Whatever the model answers,
    the extractor never throws, the loop hands every message of the batch
    to it, in order, and returns normally, and the action reports success
    whenever the fetch before it did. *)
Theorem extraction_failure_is_local (env : Env) :
  (forall (email : Email.t) (w : World),
      model env (modelCalls w) email = CallFails \/
      model env (modelCalls w) email = ParseFails \/
      model env (modelCalls w) email = Parsed JNull ->
      extractTasksFromEmail env email w = (Ok None, afterAsk email w) /\
      taskStore (afterAsk email w) = taskStore w) /\
  (forall (email : Email.t) (rest : list Email.t) (w : World),
      model env (modelCalls w) email = CallFails \/
      model env (modelCalls w) email = ParseFails \/
      model env (modelCalls w) email = Parsed JNull ->
      extractAll env (email :: rest) w
      = extractAll env rest (afterAsk email w)) /\
  (forall (email : Email.t) (w : World),
      exists task w', extractTasksFromEmail env email w = (Ok task, w')) /\
  (forall (emails : list Email.t) (w : World),
      exists tasks w',
        extractAll env emails w = (Ok tasks, w') /\
        submitted w' = submitted w ++ emails) /\
  (forall (maxResults : option nat) (w : World)
          (messages : list (option RawMessage.t)) (emails : list Email.t),
      gmail env (gmailCalls w) (default 10 maxResults) = Listed messages ->
      readMessages messages = Ok emails ->
      exists tasks text w',
        emailTool_execute env (extractTasksInput maxResults) w
        = (Ok (ToolResult.mk true None (Some tasks) text), w') /\
        submitted w' = submitted w ++ emails).
Proof.
  split; [|split; [|split; [|split]]].
  - intros email w Hfail. split; [|reflexivity].
    apply extractTasksFromEmail_none. exact Hfail.
  - intros email rest w Hfail. simpl. unfold bind.
    rewrite (extractTasksFromEmail_none env email w Hfail).
    destruct (extractAll env rest (afterAsk email w)) as [[tasks|e] w'];
      reflexivity.
  - intros email w.
    destruct (extractTasksFromEmail_total env email w) as (task & w' & H & _).
    exists task, w'. exact H.
  - intros emails w.
    destruct (extractAll_total env emails w) as (tasks & w' & H & Hs & _).
    exists tasks, w'. auto.
  - intros maxResults w messages emails Hg Hr.
    destruct (extractTasks_action_ok env maxResults w messages emails Hg Hr)
      as (tasks & text & w' & Hrun & _ & Hs & _).
    exists tasks, text, w'. auto.
Qed.

Lemma extraction_failure_is_local_witness :
  (extractTasksFromEmail Scenario.envFailThenTask Scenario.mailB Scenario.world0
   = (Ok None, afterAsk Scenario.mailB Scenario.world0) /\
   taskStore (afterAsk Scenario.mailB Scenario.world0)
   = taskStore Scenario.world0) /\
  extractAll Scenario.envFailThenTask [Scenario.mailB; Scenario.mailC]
    Scenario.world0
  = extractAll Scenario.envFailThenTask [Scenario.mailC]
      (afterAsk Scenario.mailB Scenario.world0) /\
  length
    (default []
       (match fst (extractAll Scenario.envFailThenTask
                     [Scenario.mailB; Scenario.mailC] Scenario.world0) with
        | Ok tasks => Some tasks
        | Throw _ => None
        end)) = 1 /\
  exists tasks text w',
    emailTool_execute Scenario.envFailThenTask (extractTasksInput (Some 20))
      Scenario.world0
    = (Ok (ToolResult.mk true None (Some tasks) text), w') /\
    submitted w' = submitted Scenario.world0 ++ [Scenario.mailB; Scenario.mailC].
Proof.
  split.
  { apply (proj1 (extraction_failure_is_local Scenario.envFailThenTask)).
    left. reflexivity. }
  split.
  { apply (proj1 (proj2 (extraction_failure_is_local Scenario.envFailThenTask))).
    left. reflexivity. }
  split; [vm_compute; reflexivity|].
  apply (proj2 (proj2 (proj2 (proj2
           (extraction_failure_is_local Scenario.envFailThenTask))))
           (Some 20) Scenario.world0
           [Some Scenario.msgB; Some Scenario.msgC]);
    vm_compute; reflexivity.
Defined.

(** C7, refuted as the specification states it: the answer [{}] is valid JSON with
    none of the requested fields, and the extractor builds a task from it,
    with an undefined description, and stores it. *)
Lemma malformed_answer_still_yields_task :
  let run :=
    extractTasksFromEmail Scenario.envEmptyObject Scenario.mailB
      Scenario.world0 in
  exists task,
    fst run = Ok (Some task) /\
    Task.description task = JUndef /\
    Task.priority task = JStr "medium" /\
    taskStore (snd run) !! Task.id task = Some task /\
    size (taskStore (snd run)) = 1.
Proof.
  exists (Task.mk (makeTaskId "B" 1700000000000) "B" "Quarterly report" JUndef
            "alice@example.com" (JStr "medium") JUndef pending [JStr ""]
            1700000000001).
  vm_compute. repeat split; reflexivity.
Qed.

(** ** Running the workflow steps over the real tool *)

Lemma extractTasksFromEmail_task (env : Env) (email : Email.t) (w : World)
    (fields : list (string * jsval)) :
  model env (modelCalls w) email = Parsed (JObj fields) ->
  truthy (assoc "noTask" fields) = false ->
  extractTasksFromEmail env email w
  = (Ok (Some (builtTask env email w (JObj fields))),
     setStore (<[makeTaskId (Email.id email) (clock env (clockReads w))
                 := builtTask env email w (JObj fields)]> (taskStore w))
       (advanceClock 2 (afterAsk email w))).
Proof.
  intros Hm Hno.
  unfold extractTasksFromEmail, askModel, readClock; unfold_m.
  rewrite Hm. unfold taskFields. simpl. rewrite Hno. reflexivity.
Qed.

Lemma extractTasksFromEmail_noTask (env : Env) (email : Email.t) (w : World)
    (fields : list (string * jsval)) :
  model env (modelCalls w) email = Parsed (JObj fields) ->
  truthy (assoc "noTask" fields) = true ->
  extractTasksFromEmail env email w = (Ok None, afterAsk email w).
Proof.
  intros Hm Hno.
  unfold extractTasksFromEmail, askModel; unfold_m.
  rewrite Hm. unfold taskFields. simpl. rewrite Hno. reflexivity.
Qed.

Lemma fetchEmailsStep_ok (env : Env) (w : World)
    (messages : list (option RawMessage.t)) (emails : list Email.t) :
  gmail env (gmailCalls w) 20 = Listed messages ->
  readMessages messages = Ok emails ->
  fetchEmailsStep (emailTool_execute env) w
  = (Ok (emails, length emails), afterFetch w).
Proof.
  intros Hg Hr.
  unfold fetchEmailsStep, emailTool_execute; unfold_m. simpl.
  rewrite getEmails_run, Hg, Hr. reflexivity.
Qed.

Lemma fetchEmailsStep_fails (env : Env) (w : World) :
  (forall messages emails,
      gmail env (gmailCalls w) 20 = Listed messages ->
      readMessages messages <> Ok emails) ->
  fetchEmailsStep (emailTool_execute env) w = (Throw fetchError, afterFetch w).
Proof.
  intros Hbad.
  unfold fetchEmailsStep, emailTool_execute; unfold_m. simpl.
  rewrite getEmails_run.
  destruct (gmail env _ _) as [|messages] eqn:Hg; [reflexivity|].
  destruct (readMessages messages) as [emails|e] eqn:Hr; [|reflexivity].
  destruct (Hbad messages emails eq_refl). exact Hr.
Qed.

Lemma extractTasksStep_ok (env : Env) (context : Context.t) (w : World)
    (messages : list (option RawMessage.t)) (emails : list Email.t) :
  gmail env (gmailCalls w) 20 = Listed messages ->
  readMessages messages = Ok emails ->
  exists (tasks : list Task.t) (w' : World),
    extractTasksStep (emailTool_execute env) context w
    = (Ok (tasks, length tasks), w') /\
    extractAll env emails (afterFetch w) = (Ok tasks, w') /\
    submitted w' = submitted w ++ emails /\
    gmailCalls w' = S (gmailCalls w) /\
    executionLogs w' = executionLogs w.
Proof.
  intros Hg Hr.
  destruct (extractTasks_action_ok env (Some 20) w messages emails Hg Hr)
    as (tasks & text & w' & Hrun & Hx & Hrest).
  exists tasks, w'. split; [|auto].
  unfold extractTasksStep; unfold_m.
  unfold extractTasksInput in Hrun. rewrite Hrun. reflexivity.
Qed.

(** Over the real tool the last step cannot fail: listing the store always
    succeeds. *)
Lemma updateTaskListStep_real_tool (env : Env) (context : Context.t)
    (w : World) :
  exists text,
    updateTaskListStep env (emailTool_execute env) context w
    = (Ok (Summary.mk true (size (taskStore w)) (Context.taskCount context)
             text),
       afterLog (Log.mk (clock env (clockReads w))
                   (default 0 (Context.emailCount context))
                   (default 0 (Context.taskCount context))
                   LogStatus.success None) w).
Proof.
  eexists.
  unfold updateTaskListStep, emailTool_execute, getAllTasks; unfold_m.
  simpl. rewrite length_fmap, length_map_to_list. reflexivity.
Qed.

Lemma readMessages_with_failed_get (messages : list (option RawMessage.t))
    (emails : list Email.t) :
  In None messages -> readMessages messages <> Ok emails.
Proof.
  revert emails. induction messages as [|[m|] rest IH]; intros emails Hin.
  - destruct Hin.
  - destruct Hin as [Hin|Hin]; [discriminate Hin|]. simpl.
    destruct (readMessage m) as [kept|e]; simpl; [|discriminate].
    destruct (readMessages rest) as [tail|e] eqn:Hr; simpl; [|discriminate].
    destruct (IH tail Hin). reflexivity.
  - simpl. discriminate.
Qed.

(** C3, what the code does when the Message Source fails. When
    [messages.list] or a [messages.get] throws in the first step, the run
    ends with the error "Failed to fetch emails from Gmail", no task is
    inserted and no message reaches the extractor; but the execution log
    is left as it was: only the last step ever appends an entry. *)
Theorem source_failure_fails_run_without_log_entry (env : Env) (w : World) :
  gmail env (gmailCalls w) 20 = ListFails \/
  (exists messages,
      gmail env (gmailCalls w) 20 = Listed messages /\ In None messages) ->
  exists w',
    taskRefreshWorkflow_execute env w = (Throw fetchError, w') /\
    triggerTaskRefresh env w = (Throw fetchError, w') /\
    executionLogs w' = executionLogs w /\
    taskStore w' = taskStore w /\
    submitted w' = submitted w.
Proof.
  intros Hdown.
  assert (Hstep : fetchEmailsStep (emailTool_execute env) w
                  = (Throw fetchError, afterFetch w)).
  { apply fetchEmailsStep_fails. intros messages emails Hg.
    destruct Hdown as [Hd|(ms & Hd & Hnone)]; [congruence|].
    rewrite Hg in Hd. injection Hd as ->.
    apply readMessages_with_failed_get. exact Hnone. }
  exists (afterFetch w).
  assert (Hrun : taskRefreshWorkflow_execute env w
                 = (Throw fetchError, afterFetch w)).
  { unfold taskRefreshWorkflow_execute, runSteps, bind.
    rewrite Hstep. reflexivity. }
  split; [exact Hrun|].
  split; [unfold triggerTaskRefresh, tryCatch; rewrite Hrun; reflexivity|].
  auto.
Qed.

Lemma source_failure_fails_run_without_log_entry_witness :
  exists w',
    taskRefreshWorkflow_execute Scenario.envDown Scenario.world0
    = (Throw fetchError, w') /\
    triggerTaskRefresh Scenario.envDown Scenario.world0
    = (Throw fetchError, w') /\
    executionLogs w' = executionLogs Scenario.world0 /\
    taskStore w' = taskStore Scenario.world0 /\
    submitted w' = submitted Scenario.world0.
Proof.
  apply (source_failure_fails_run_without_log_entry Scenario.envDown
           Scenario.world0).
  left. reflexivity.
Defined.

(** C1, as the code has it. The inbox lists A, B and C at both fetches of
    the run; A is filtered out as promotional, the model answers B with a
    task and C with the no-task marker; the store starts empty. Then the
    run succeeds and appends one entry with status success,
    emailsChecked = 2 (the messages that passed the filter; A is not
    counted) and tasksExtracted = 1, and the store holds exactly one task,
    whose [emailId] is B's identifier. *)
Theorem run_over_three_messages_counts_eligible_ones
    (env : Env) (w : World) (A B C : RawMessage.t) (mailB mailC : Email.t)
    (answerB answerC : list (string * jsval)) :
  taskStore w = ∅ ->
  gmail env (gmailCalls w) 20 = Listed [Some A; Some B; Some C] ->
  gmail env (S (gmailCalls w)) 20 = Listed [Some A; Some B; Some C] ->
  readMessage A = Ok None ->
  readMessage B = Ok (Some mailB) ->
  readMessage C = Ok (Some mailC) ->
  model env (modelCalls w) mailB = Parsed (JObj answerB) ->
  truthy (assoc "noTask" answerB) = false ->
  model env (S (modelCalls w)) mailC = Parsed (JObj answerC) ->
  truthy (assoc "noTask" answerC) = true ->
  exists (summary : Summary.t) (w' : World) (entry : Log.t) (task : Task.t),
    taskRefreshWorkflow_execute env w = (Ok summary, w') /\
    executionLogs w' = executionLogs w ++ [entry] /\
    Log.emailsChecked entry = 2 /\
    Log.tasksExtracted entry = 1 /\
    Log.status entry = LogStatus.success /\
    Log.error entry = None /\
    taskStore w' = {[ Task.id task := task ]} /\
    size (taskStore w') = 1 /\
    Task.emailId task = RawMessage.id B /\
    Summary.totalTasks summary = 1 /\
    Summary.newTasks summary = Some 1.
Proof.
  intros Hempty Hg1 Hg2 HA HB HC HmB HnB HmC HnC.
  assert (Hr : readMessages [Some A; Some B; Some C] = Ok [mailB; mailC]).
  { simpl. rewrite HA, HB, HC. reflexivity. }
  assert (HidB : Email.id mailB = RawMessage.id B).
  { destruct (readMessage_kept B mailB HB) as (body & _ & Hid & _). exact Hid. }
  set (w1 := afterFetch w).
  set (w2 := afterFetch w1).
  set (task := builtTask env mailB w2 (JObj answerB)).
  set (w3 := setStore (<[makeTaskId (Email.id mailB) (clock env (clockReads w2))
                         := task]> (taskStore w2))
               (advanceClock 2 (afterAsk mailB w2))).
  set (w4 := afterAsk mailC w3).
  assert (Hx : extractAll env [mailB; mailC] w2 = (Ok [task], w4)).
  { simpl. unfold bind.
    rewrite (extractTasksFromEmail_task env mailB w2 answerB HmB HnB).
    fold task. fold w3.
    rewrite (extractTasksFromEmail_noTask env mailC w3 answerC HmC HnC).
    reflexivity. }
  destruct (extractTasksStep_ok env
              (Context.mk (Some [mailB; mailC]) (Some 2) None None)
              w1 _ _ Hg2 Hr) as (tasks & w4' & Hstep2 & Hx' & _).
  fold w2 in Hx'. rewrite Hx in Hx'. injection Hx' as <- <-.
  destruct (updateTaskListStep_real_tool env
              (Context.mk (Some [mailB; mailC]) (Some 2) (Some [task]) (Some 1))
              w4) as (text & Hstep3).
  eexists _, _, _, task. split.
  - unfold taskRefreshWorkflow_execute, runSteps, bind.
    rewrite (fetchEmailsStep_ok env w _ _ Hg1 Hr). fold w1. simpl.
    rewrite Hstep2. simpl. exact Hstep3.
  - simpl. rewrite Hempty.
    change (<[makeTaskId (Email.id mailB) (clock env (clockReads w)) := task]> ∅)
      with ({[ Task.id task := task ]} : gmap string Task.t).
    rewrite map_size_singleton.
    repeat split; try reflexivity. exact HidB.
Qed.

Lemma run_over_three_messages_counts_eligible_ones_witness :
  exists (summary : Summary.t) (w' : World) (entry : Log.t) (task : Task.t),
    taskRefreshWorkflow_execute Scenario.envABC Scenario.world0
    = (Ok summary, w') /\
    executionLogs w' = executionLogs Scenario.world0 ++ [entry] /\
    Log.emailsChecked entry = 2 /\
    Log.tasksExtracted entry = 1 /\
    Log.status entry = LogStatus.success /\
    Log.error entry = None /\
    taskStore w' = {[ Task.id task := task ]} /\
    size (taskStore w') = 1 /\
    Task.emailId task = RawMessage.id Scenario.msgB /\
    Summary.totalTasks summary = 1 /\
    Summary.newTasks summary = Some 1.
Proof.
  apply (run_over_three_messages_counts_eligible_ones Scenario.envABC
           Scenario.world0 Scenario.msgA Scenario.msgB Scenario.msgC
           Scenario.mailB Scenario.mailC
           [("description", JStr "Send the quarterly report");
            ("priority", JStr "high");
            ("dueDate", JStr "2026-11-06");
            ("context", JStr "Requested by Alice")]
           [("noTask", JBool true)]);
    vm_compute; reflexivity.
Defined.

(** C1, refuted as the specification states it: with A promotional, B yielding a task
    and C yielding none, the entry of the run has emailsChecked = 2, not
    3. *)
Lemma run_example_reports_two_emails_checked :
  let run := taskRefreshWorkflow_execute Scenario.envABC Scenario.world0 in
  readMessage Scenario.msgA = Ok None /\
  isPromotionalEmail (RawMessage.headers Scenario.msgA) "Save 20% today" = true /\
  readMessage Scenario.msgB = Ok (Some Scenario.mailB) /\
  readMessage Scenario.msgC = Ok (Some Scenario.mailC) /\
  executionLogs (snd run)
  = [Log.mk 1700000000002 2 1 LogStatus.success None] /\
  Log.emailsChecked <$> executionLogs (snd run) <> [3].
Proof. vm_compute. repeat split; try reflexivity. discriminate. Qed.

(** C2, as the code has it. The second step does not read the messages
    the first step returned: it asks the tool to extract, and the tool
    fetches from the Message Source again. The messages handed to the
    extractor are the eligible messages of that second fetch, in order;
    they are the ones the first step carried forward when the Message
    Source answers both fetches alike. *)
Theorem extraction_submits_messages_of_second_fetch
    (env : Env) (w : World)
    (messages1 messages2 : list (option RawMessage.t))
    (emails1 emails2 : list Email.t) :
  gmail env (gmailCalls w) 20 = Listed messages1 ->
  readMessages messages1 = Ok emails1 ->
  gmail env (S (gmailCalls w)) 20 = Listed messages2 ->
  readMessages messages2 = Ok emails2 ->
  fetchEmailsStep (emailTool_execute env) w
  = (Ok (emails1, length emails1), afterFetch w) /\
  (forall context context',
      extractTasksStep (emailTool_execute env) context
      = extractTasksStep (emailTool_execute env) context') /\
  exists (tasks : list Task.t) (w2 : World),
    extractTasksStep (emailTool_execute env)
      (Context.mk (Some emails1) (Some (length emails1)) None None)
      (afterFetch w)
    = (Ok (tasks, length tasks), w2) /\
    submitted w2 = submitted w ++ emails2 /\
    gmailCalls w2 = 2 + gmailCalls w /\
    (messages2 = messages1 -> submitted w2 = submitted w ++ emails1).
Proof.
  intros Hg1 Hr1 Hg2 Hr2.
  split; [apply (fetchEmailsStep_ok env w messages1 emails1 Hg1 Hr1)|].
  split; [reflexivity|].
  destruct (extractTasksStep_ok env
              (Context.mk (Some emails1) (Some (length emails1)) None None)
              (afterFetch w) messages2 emails2 Hg2 Hr2)
    as (tasks & w2 & Hstep & _ & Hs & Hc & _).
  exists tasks, w2. split; [exact Hstep|].
  split; [exact Hs|]. split; [exact Hc|].
  intros Heq. rewrite Hs. rewrite Heq, Hr1 in Hr2. injection Hr2 as <-.
  reflexivity.
Qed.

Lemma extraction_submits_messages_of_second_fetch_witness :
  fetchEmailsStep (emailTool_execute Scenario.envGrowing) Scenario.world0
  = (Ok ([Scenario.mailB], length [Scenario.mailB]),
     afterFetch Scenario.world0) /\
  (forall context context',
      extractTasksStep (emailTool_execute Scenario.envGrowing) context
      = extractTasksStep (emailTool_execute Scenario.envGrowing) context') /\
  exists (tasks : list Task.t) (w2 : World),
    extractTasksStep (emailTool_execute Scenario.envGrowing)
      (Context.mk (Some [Scenario.mailB]) (Some (length [Scenario.mailB]))
         None None)
      (afterFetch Scenario.world0)
    = (Ok (tasks, length tasks), w2) /\
    submitted w2
    = submitted Scenario.world0 ++ [Scenario.mailB; Scenario.mailC] /\
    gmailCalls w2 = 2 + gmailCalls Scenario.world0 /\
    ([Some Scenario.msgB; Some Scenario.msgC] = [Some Scenario.msgB] ->
     submitted w2 = submitted Scenario.world0 ++ [Scenario.mailB]).
Proof.
  apply (extraction_submits_messages_of_second_fetch Scenario.envGrowing
           Scenario.world0 [Some Scenario.msgB]
           [Some Scenario.msgB; Some Scenario.msgC]
           [Scenario.mailB] [Scenario.mailB; Scenario.mailC]);
    vm_compute; reflexivity.
Defined.

(** C2, refuted as the specification states it: message C arrives between the two
    fetches of one run. The first step carries forward B alone; the
    second step fetches again and hands B and C to the extractor. *)
Lemma extraction_fetches_again :
  let step1 :=
    fetchEmailsStep (emailTool_execute Scenario.envGrowing) Scenario.world0 in
  let step2 :=
    extractTasksStep (emailTool_execute Scenario.envGrowing)
      (Context.mk (Some [Scenario.mailB]) (Some 1) None None) (snd step1) in
  let run :=
    taskRefreshWorkflow_execute Scenario.envGrowing Scenario.world0 in
  fst step1 = Ok ([Scenario.mailB], 1) /\
  gmailCalls (snd step1) = 1 /\
  submitted (snd step2) = [Scenario.mailB; Scenario.mailC] /\
  gmailCalls (snd step2) = 2 /\
  submitted (snd run) = [Scenario.mailB; Scenario.mailC] /\
  gmailCalls (snd run) = 2 /\
  Log.emailsChecked <$> executionLogs (snd run) = [1].
Proof. vm_compute. repeat split; reflexivity. Qed.

(** ** The content decoder *)

Lemma jsize_pos (v : jsval) : 1 <= jsize v.
Proof. destruct v; simpl; lia. Qed.

Lemma assoc_size (f : string) (fields : list (string * jsval)) :
  assoc f fields = JUndef \/
  S (jsize (assoc f fields))
  <= list_sum (List.map (fun p => S (jsize (snd p))) fields).
Proof.
  induction fields as [|[k v] rest IH]; simpl; [left; reflexivity|].
  destruct (String.eqb k f); [right; lia|].
  destruct IH as [IH|IH]; [left; exact IH|right; lia].
Qed.

Lemma element_size (part : jsval) (items : list jsval) :
  In part items -> jsize part <= list_sum (List.map jsize items).
Proof.
  induction items as [|x items IH]; simpl; [tauto|].
  intros [->|Hin]; [lia|]. specialize (IH Hin). lia.
Qed.

Lemma get_size (v x : jsval) (f : string) :
  get v f = Ok x -> jsize x <= jsize v.
Proof.
  destruct v; simpl; try discriminate;
    try (intros [= <-]; simpl; lia).
  intros [= <-]. destruct (assoc_size f fields) as [->|H]; simpl; lia.
Qed.

Lemma get_truthy_object (v x : jsval) (f : string) :
  get v f = Ok x -> truthy x = true ->
  exists fields, v = JObj fields /\ jsize (JObj [(f, x)]) <= jsize v.
Proof.
  destruct v; simpl; try discriminate;
    try (intros [= <-]; discriminate).
  intros [= <-] Ht. exists fields. split; [reflexivity|].
  destruct (assoc_size f fields) as [Hu|H]; [rewrite Hu in Ht; discriminate|].
  simpl. lia.
Qed.

Lemma isTextMime_object (v mimeType : jsval) :
  get v "mimeType" = Ok mimeType -> isTextMime mimeType = true ->
  exists fields, v = JObj fields.
Proof.
  destruct v; simpl; try discriminate;
    try (intros [= <-]; discriminate).
  eauto.
Qed.

(** The loop ends once the recursive calls on the parts do. *)
Lemma decodeParts_total (self : jsval -> option (result string))
    (parts : list jsval) :
  (forall part arg,
      In part parts -> (exists fields, part = JObj fields) ->
      jsize arg <= jsize part -> exists r, self arg = Some r) ->
  exists r, decodeParts self parts = Some r.
Proof.
  induction parts as [|part rest IH]; intros Hself; simpl; [eauto|].
  assert (Hrest : exists r, decodeParts self rest = Some r).
  { apply IH. intros p arg Hin. apply Hself. right. exact Hin. }
  destruct (get part "mimeType") as [mimeType|e] eqn:Hm; [|eauto].
  destruct (isTextMime mimeType) eqn:Ht.
  - destruct (get part "body") as [b|e] eqn:Hb; [|eauto].
    apply (Hself part b); [left; reflexivity| |].
    + apply (isTextMime_object part mimeType Hm Ht).
    + apply (get_size part b "body" Hb).
  - destruct (get part "parts") as [pp|e] eqn:Hp; [|eauto].
    destruct (truthy pp) eqn:Hpp; [|exact Hrest].
    destruct (get_truthy_object part pp "parts" Hp Hpp) as (fields & Hobj & Hsz).
    destruct (Hself part (JObj [("parts", pp)])) as [[decoded|e] Hr];
      [left; reflexivity|eauto|exact Hsz| |]; rewrite Hr; [|eauto].
    destruct (negb (String.eqb decoded "")); [eauto|exact Hrest].
Qed.

Lemma chars_not_object (s : string) (part : jsval) :
  In part (chars s) -> ~ exists fields, part = JObj fields.
Proof.
  induction s as [|c s IH]; simpl; [tauto|].
  intros [<-|Hin]; [intros [fields H]; discriminate H|auto].
Qed.

(** A budget above the size of the payload is never exhausted. *)
Lemma decodeEmailBody_fuel_total (n : nat) (body : jsval) :
  jsize body <= n -> exists r, decodeEmailBody_fuel (S n) body = Some r.
Proof.
  revert body. induction n as [|n IH]; intros body Hsz.
  - pose proof (jsize_pos body). lia.
  - change (decodeEmailBody_fuel (S (S n)) body)
      with (if negb (truthy body) then Some (Ok "")
            else
              match get body "data" with
              | Throw e => Some (Throw e)
              | Ok data =>
                  if truthy data then Some (bufferFromBase64 data)
                  else
                    match get body "parts" with
                    | Throw e => Some (Throw e)
                    | Ok parts =>
                        if truthy parts then
                          match iterate parts with
                          | Throw e => Some (Throw e)
                          | Ok items =>
                              decodeParts (decodeEmailBody_fuel (S n)) items
                          end
                        else Some (Ok "")
                    end
              end).
    destruct (negb (truthy body)); [eauto|].
    destruct (get body "data") as [data|e]; [|eauto].
    destruct (truthy data); [eauto|].
    destruct (get body "parts") as [parts|e] eqn:Hp; [|eauto].
    destruct (truthy parts) eqn:Hpp; [|eauto].
    destruct (get_truthy_object body parts "parts" Hp Hpp) as (fields & _ & Hob).
    destruct (iterate parts) as [items|e] eqn:Hit; [|eauto].
    apply decodeParts_total. intros part arg Hin Hobj Harg. apply IH.
    destruct parts; simpl in Hit; try discriminate; injection Hit as <-.
    + destruct (chars_not_object s part Hin Hobj).
    + pose proof (element_size part items0 Hin). simpl in Hob. lia.
Qed.

Lemma decodeParts_mono (self self' : jsval -> option (result string))
    (parts : list jsval) (r : result string) :
  (forall arg x, self arg = Some x -> self' arg = Some x) ->
  decodeParts self parts = Some r -> decodeParts self' parts = Some r.
Proof.
  intros Hself. induction parts as [|part rest IH]; simpl; [auto|].
  destruct (get part "mimeType") as [mimeType|e]; [|auto].
  destruct (isTextMime mimeType).
  - destruct (get part "body") as [b|e]; [|auto]. apply Hself.
  - destruct (get part "parts") as [pp|e]; [|auto].
    destruct (truthy pp); [|exact IH].
    destruct (self (JObj [("parts", pp)])) as [x|] eqn:Hx; [|discriminate].
    rewrite (Hself _ x Hx). destruct x as [decoded|e]; [|auto].
    destruct (negb (String.eqb decoded "")); [auto|exact IH].
Qed.

(** A larger budget does not change a result. *)
Lemma decodeEmailBody_fuel_mono (n m : nat) (body : jsval) (r : result string) :
  n <= m ->
  decodeEmailBody_fuel n body = Some r -> decodeEmailBody_fuel m body = Some r.
Proof.
  revert m body r. induction n as [|n IH]; intros m body r Hle; [discriminate|].
  destruct m as [|m]; [lia|]. simpl.
  destruct (negb (truthy body)); [auto|].
  destruct (get body "data") as [data|e]; [|auto].
  destruct (truthy data); [auto|].
  destruct (get body "parts") as [parts|e]; [|auto].
  destruct (truthy parts); [|auto].
  destruct (iterate parts) as [items|e]; [|auto].
  apply decodeParts_mono. intros arg x. apply IH. lia.
Qed.

(** [decodeEmailBody] is the result of the budgeted decoder at any budget
    that yields one; in particular it always returns or throws. *)
Lemma decodeEmailBody_fuel_enough (body : jsval) (r : result string) :
  decodeEmailBody body = r <->
  exists n, decodeEmailBody_fuel n body = Some r.
Proof.
  unfold decodeEmailBody.
  destruct (decodeEmailBody_fuel_total (jsize body) body (le_n _)) as [x Hx].
  rewrite Hx. split.
  - intros ->. eauto.
  - intros [n Hn].
    destruct (Nat.le_ge_cases n (S (jsize body))) as [Hle|Hle].
    + rewrite (decodeEmailBody_fuel_mono _ _ _ _ Hle Hn) in Hx. congruence.
    + rewrite (decodeEmailBody_fuel_mono _ _ _ _ Hle Hx) in Hn. congruence.
Qed.

Lemma decodeEmailBody_absent :
  decodeEmailBody JUndef = Ok "" /\ decodeEmailBody JNull = Ok "".
Proof. split; reflexivity. Qed.

Lemma decodeEmailBody_own_data (fields : list (string * jsval)) (data : string) :
  assoc "data" fields = JStr data -> data <> "" ->
  decodeEmailBody (JObj fields) = Ok (Base64.decode data).
Proof.
  intros Hd Hne. unfold decodeEmailBody. simpl. rewrite Hd. simpl.
  destruct (String.eqb_spec data ""); [contradiction|reflexivity].
Qed.

Lemma get_present (v : jsval) (f : string) :
  v <> JUndef -> v <> JNull -> get v f = Ok (getOpt v f).
Proof. destruct v; simpl; congruence. Qed.

Lemma firstDecodable_fuel_no_parts (n : nat) (pp : jsval) :
  truthy pp = false -> firstDecodable_fuel n (JObj [("parts", pp)]) = "".
Proof.
  intros Hpp. destruct n as [|n]; [reflexivity|].
  simpl. destruct pp; try reflexivity; discriminate Hpp.
Qed.

Lemma decodeParts_tidy (self : jsval -> option (result string))
    (ok : jsval -> bool) (spec : jsval -> string) (parts : list jsval) :
  (forall arg, ok arg = true -> self arg = Some (Ok (spec arg))) ->
  (forall pp, truthy pp = false -> spec (JObj [("parts", pp)]) = "") ->
  tidyParts ok spec parts = true ->
  decodeParts self parts = Some (Ok (firstDecodableIn spec parts)).
Proof.
  intros Hself Hfalsy. induction parts as [|part rest IH]; [reflexivity|].
  simpl. intros Ht.
  assert (Hu : part <> JUndef) by (intros ->; discriminate Ht).
  assert (Hn : part <> JNull) by (intros ->; discriminate Ht).
  assert (Ht' :
            (if isTextMime (getOpt part "mimeType") then
               ok (getOpt part "body")
               && (negb (String.eqb (spec (getOpt part "body")) "")
                   || String.eqb (firstDecodableIn spec rest) "")
             else
               ok (JObj [("parts", getOpt part "parts")])
               && (negb (String.eqb
                           (spec (JObj [("parts", getOpt part "parts")])) "")
                   || tidyParts ok spec rest)) = true)
    by (destruct part; try congruence; exact Ht).
  clear Ht. rewrite !(get_present part) by assumption.
  destruct (isTextMime (getOpt part "mimeType")).
  - apply andb_true_iff in Ht' as [Hok Hne].
    rewrite (Hself _ Hok).
    destruct (String.eqb_spec (spec (getOpt part "body")) "") as [Hempty|_];
      simpl in *; [|reflexivity].
    apply String.eqb_eq in Hne. rewrite Hempty, Hne. reflexivity.
  - apply andb_true_iff in Ht' as [Hok Hrest].
    destruct (truthy (getOpt part "parts")) eqn:Hpp.
    + rewrite (Hself _ Hok).
      destruct (negb (String.eqb (spec (JObj [("parts", getOpt part "parts")])) ""));
        [reflexivity|]. apply IH. exact Hrest.
    + rewrite (Hfalsy _ Hpp) in *. simpl in *. apply IH. exact Hrest.
Qed.

Lemma decodeEmailBody_fuel_tidy (n : nat) (body : jsval) :
  tidy_fuel n body = true ->
  decodeEmailBody_fuel n body = Some (Ok (firstDecodable_fuel n body)).
Proof.
  revert body. induction n as [|n IH]; intros body; [discriminate|].
  destruct body as [| |b|z|s|items|fields];
    try reflexivity.
  - destruct b; reflexivity.
  - simpl. destruct (z =? 0)%Z; reflexivity.
  - simpl. destruct (String.eqb s ""); reflexivity.
  - change (tidy_fuel (S n) (JObj fields))
      with (let partsOK :=
              match assoc "parts" fields with
              | JArr items =>
                  tidyParts (tidy_fuel n) (firstDecodable_fuel n) items
              | JStr _ => true
              | other => negb (truthy other)
              end in
            match assoc "data" fields with
            | JStr data =>
                if String.eqb data "" then partsOK
                else negb (String.eqb (Base64.decode data) "")
            | other => negb (truthy other) && partsOK
            end).
    simpl.
    assert (Hparts :
              match assoc "parts" fields with
              | JArr items =>
                  tidyParts (tidy_fuel n) (firstDecodable_fuel n) items
              | JStr _ => true
              | other => negb (truthy other)
              end = true ->
              match get (JObj fields) "parts" with
              | Throw e => Some (Throw e)
              | Ok parts =>
                  if truthy parts then
                    match iterate parts with
                    | Throw e => Some (Throw e)
                    | Ok items => decodeParts (decodeEmailBody_fuel n) items
                    end
                  else Some (Ok "")
              end
              = Some (Ok match assoc "parts" fields with
                         | JArr items =>
                             firstDecodableIn (firstDecodable_fuel n) items
                         | _ => ""
                         end)).
    { simpl. destruct (assoc "parts" fields) as [| |b|z|s|items|fs]; simpl;
        try reflexivity; try discriminate.
      - destruct b; [discriminate|reflexivity].
      - destruct (z =? 0)%Z; [reflexivity|discriminate].
      - intros _. destruct (String.eqb s "") eqn:Hs; simpl; [reflexivity|].
        clear. induction s as [|c s IHs]; [reflexivity|exact IHs].
      - apply decodeParts_tidy; [exact IH|].
        apply firstDecodable_fuel_no_parts. }
    destruct (assoc "data" fields) as [| |b|z|data|items|fs]; simpl;
      try exact Hparts; try discriminate.
    + destruct b; simpl; [discriminate|exact Hparts].
    + destruct (z =? 0)%Z; simpl; [exact Hparts|discriminate].
    + destruct (String.eqb_spec data "") as [->|Hd]; simpl; [exact Hparts|].
      destruct (String.eqb_spec data "") as [|_]; [contradiction|]. simpl.
      intros Hne. rewrite Hne. reflexivity.
Qed.

(** On tidy payloads the decoder returns the contract's answer. *)
Lemma decodeEmailBody_meets_contract_on_tidy (body : jsval) :
  tidy body = true -> decodeEmailBody body = Ok (firstDecodable body).
Proof.
  unfold tidy, decodeEmailBody, firstDecodable. intros Ht.
  rewrite (decodeEmailBody_fuel_tidy _ _ Ht). reflexivity.
Qed.

Lemma tidy_examples :
  tidy Scenario.nestedEmptyPlainThenHtml = true /\
  tidy Scenario.gmailMultipart = true /\
  tidy (Scenario.simplePayload "aGk=") = true /\
  tidy Scenario.emptyPlainThenHtml = false.
Proof. vm_compute. repeat split; reflexivity. Qed.

(** C4, where the decoder departs from its contract. A plain-text part
    without data followed by an HTML part with data: the loop returns the
    result of the first text part at once, empty as it is, so the decoder
    answers the empty text although the HTML part is decodable (the
    contract's answer is its text). One level down the same two parts are
    handled as the contract says, because the branch for nested parts
    goes on after an empty result. A part list holding [null] makes the
    decoder throw. And for a multipart message as Gmail delivers it, whose
    container has a body object of size 0, [getEmails] hands that body
    object to the decoder, which answers the empty text. *)
Theorem decoder_stops_at_first_text_part_even_if_empty :
  decodeEmailBody Scenario.emptyPlainThenHtml = Ok "" /\
  firstDecodable Scenario.emptyPlainThenHtml = "<b>hi</b>" /\
  decodeEmailBody Scenario.nestedEmptyPlainThenHtml = Ok "<b>hi</b>" /\
  firstDecodable Scenario.nestedEmptyPlainThenHtml = "<b>hi</b>" /\
  decodeEmailBody (JObj [("parts", JArr [JNull])])
  = Throw (ErrorObj
             "Cannot read properties of null (reading 'mimeType')") /\
  decodeEmailBody
    (or_else (getOpt Scenario.gmailMultipart "body") Scenario.gmailMultipart)
  = Ok "" /\
  firstDecodable Scenario.gmailMultipart = "hi".
Proof. vm_compute. repeat split; reflexivity. Qed.

(* ===================================================================== *)
(** * Further properties of the code *)
(* ===================================================================== *)

(** ** What [getEmails] returns *)

Lemma substring_length_le (n : nat) (s : string) :
  String.length (String.substring 0 n s) <= n.
Proof.
  revert s. induction n as [|n IH]; intros [|c s]; simpl; try lia.
  specialize (IH s). lia.
Qed.




Lemma getEmails_ok_inv (env : Env) (maxResults : nat) (w w' : World)
    (emails : list Email.t) :
  getEmails env maxResults w = (Ok emails, w') ->
  exists messages,
    gmail env (gmailCalls w) maxResults = Listed messages /\
    readMessages messages = Ok emails /\
    w' = afterFetch w.
Proof.
  rewrite getEmails_run.
  destruct (gmail env _ _) as [|messages]; [discriminate|].
  destruct (readMessages messages) as [es|e] eqn:Hr; [|discriminate].
  intros [= <- <-]. exists messages. auto.
Qed.





Lemma readMessages_all_delivered (messages : list (option RawMessage.t))
    (emails : list Email.t) :
  readMessages messages = Ok emails ->
  exists ms,
    messages = Some <$> ms /\
    sublist (Email.id <$> emails) (RawMessage.id <$> ms).
Proof.
  revert emails. induction messages as [|[m|] rest IH]; intros emails; simpl.
  - intros [= <-]. exists []. split; [reflexivity|constructor].
  - destruct (readMessage m) as [kept|e] eqn:Hm; simpl; [|discriminate].
    destruct (readMessages rest) as [tail|e]; simpl; [|discriminate].
    intros [= <-]. destruct (IH tail eq_refl) as (ms & -> & Hsub).
    exists (m :: ms). split; [reflexivity|].
    destruct kept as [email|]; simpl.
    + destruct (readMessage_kept m email Hm) as (_ & _ & -> & _).
      apply sublist_skip. exact Hsub.
    + apply sublist_cons. exact Hsub.
  - discriminate.
Qed.

(** X2. When [getEmails] succeeds, every listed message was delivered, and
    the identifiers of the returned messages are the listed identifiers
    with some left out: same order, none invented, none repeated beyond
    the listing; so the count is at most the number listed. *)
Theorem fetched_messages_are_listed_ones_in_order
    (env : Env) (maxResults : nat) (w w' : World) (emails : list Email.t) :
  getEmails env maxResults w = (Ok emails, w') ->
  exists ms,
    gmail env (gmailCalls w) maxResults = Listed (Some <$> ms) /\
    sublist (Email.id <$> emails) (RawMessage.id <$> ms) /\
    length emails <= length ms.
Proof.
  intros Hrun.
  destruct (getEmails_ok_inv _ _ _ _ _ Hrun) as (messages & Hg & Hr & _).
  destruct (readMessages_all_delivered messages emails Hr) as (ms & -> & Hsub).
  exists ms. split; [exact Hg|]. split; [exact Hsub|].
  apply sublist_length in Hsub. rewrite !length_fmap in Hsub. exact Hsub.
Qed.

Lemma fetched_messages_are_listed_ones_in_order_witness :
  exists ms,
    gmail Scenario.envABC (gmailCalls Scenario.world0) 20
    = Listed (Some <$> ms) /\
    sublist (Email.id <$> [Scenario.mailB; Scenario.mailC])
      (RawMessage.id <$> ms) /\
    length [Scenario.mailB; Scenario.mailC] <= length ms.
Proof.
  apply (fetched_messages_are_listed_ones_in_order Scenario.envABC 20
           Scenario.world0 (afterFetch Scenario.world0)).
  vm_compute. reflexivity.
Defined.

Lemma headerValue_nonempty (p : Header.t -> bool) (headers : list Header.t)
    (dflt : string) :
  dflt <> "" -> headerValue p headers dflt <> "".
Proof.
  intros Hd. unfold headerValue, str_or.
  destruct (List.find p headers) as [h|]; [|exact Hd].
  destruct (String.eqb_spec (Header.value h) ""); assumption.
Qed.

Lemma headerValue_absent (p : Header.t -> bool) (headers : list Header.t)
    (dflt : string) :
  (forall h, In h headers -> p h = false) -> headerValue p headers dflt = dflt.
Proof.
  intros Hnone. unfold headerValue.
  destruct (List.find p headers) as [h|] eqn:Hf; [|reflexivity].
  apply List.find_some in Hf as [Hin Hp]. rewrite (Hnone h Hin) in Hp.
  discriminate.
Qed.

Lemma find_first_match {A} (p : A -> bool) (pre post : list A) (h : A) :
  (forall x, In x pre -> p x = false) -> p h = true ->
  List.find p (pre ++ h :: post) = Some h.
Proof.
  intros Hpre Hh. induction pre as [|x pre IH]; simpl.
  - rewrite Hh. reflexivity.
  - rewrite (Hpre x (or_introl eq_refl)). apply IH.
    intros y Hy. apply Hpre. right. exact Hy.
Qed.

Lemma headerValue_first (name dflt : string) (pre post : list Header.t)
    (h : Header.t) :
  (forall x, In x pre -> Header.name x <> name) ->
  Header.name h = name ->
  (Header.value h = "" ->
   headerValue (fun x => String.eqb (Header.name x) name) (pre ++ h :: post)
     dflt = dflt) /\
  (Header.value h <> "" ->
   headerValue (fun x => String.eqb (Header.name x) name) (pre ++ h :: post)
     dflt = Header.value h).
Proof.
  intros Hpre Hname. unfold headerValue, str_or.
  rewrite (find_first_match _ pre post h).
  - destruct (String.eqb_spec (Header.value h) ""); split; intros; congruence.
  - intros x Hx. apply String.eqb_neq. apply Hpre. exact Hx.
  - apply String.eqb_eq. exact Hname.
Qed.

(** X3. How [getEmails] fills subject, sender and date. The subject is
    the value of the first header named exactly "Subject"; when that value
    is empty, or when no header has that name, it is "No Subject". The
    sender is read in the same way from "From", with "Unknown" for an
    empty or missing value, and the date from "Date", with the empty text.
    So subject and sender are never empty. A header spelled "subject" or
    "FROM" does not count here, although the filter reads it. *)
Theorem fetched_subject_and_sender_have_defaults
    (m : RawMessage.t) (email : Email.t) :
  readMessage m = Ok (Some email) ->
  Email.subject email <> "" /\
  Email.from email <> "" /\
  ((forall h, In h (RawMessage.headers m) -> Header.name h <> "Subject") ->
   Email.subject email = "No Subject") /\
  ((forall h, In h (RawMessage.headers m) -> Header.name h <> "From") ->
   Email.from email = "Unknown") /\
  ((forall h, In h (RawMessage.headers m) -> Header.name h <> "Date") ->
   Email.date email = "") /\
  (forall pre h post,
      RawMessage.headers m = pre ++ h :: post ->
      (forall x, In x pre -> Header.name x <> "Subject") ->
      Header.name h = "Subject" ->
      (Header.value h = "" -> Email.subject email = "No Subject") /\
      (Header.value h <> "" -> Email.subject email = Header.value h)) /\
  (forall pre h post,
      RawMessage.headers m = pre ++ h :: post ->
      (forall x, In x pre -> Header.name x <> "From") ->
      Header.name h = "From" ->
      (Header.value h = "" -> Email.from email = "Unknown") /\
      (Header.value h <> "" -> Email.from email = Header.value h)) /\
  (forall pre h post,
      RawMessage.headers m = pre ++ h :: post ->
      (forall x, In x pre -> Header.name x <> "Date") ->
      Header.name h = "Date" ->
      Email.date email = Header.value h).
Proof.
  unfold readMessage. destruct (decodeEmailBody _) as [body|e]; simpl;
    [|discriminate].
  destruct (isPromotionalEmail _ body); [discriminate|].
  intros [= <-]. simpl.
  split; [apply headerValue_nonempty; discriminate|].
  split; [apply headerValue_nonempty; discriminate|].
  split; [intros Hno; apply headerValue_absent; intros h Hin;
          apply String.eqb_neq; apply Hno; exact Hin|].
  split; [intros Hno; apply headerValue_absent; intros h Hin;
          apply String.eqb_neq; apply Hno; exact Hin|].
  split; [intros Hno; apply headerValue_absent; intros h Hin;
          apply String.eqb_neq; apply Hno; exact Hin|].
  split; [|split].
  - intros pre h post -> Hpre Hname.
    apply headerValue_first; assumption.
  - intros pre h post -> Hpre Hname.
    apply headerValue_first; assumption.
  - intros pre h post -> Hpre Hname.
    destruct (headerValue_first "Date" "" pre post h Hpre Hname) as [He Hn].
    destruct (String.eqb_spec (Header.value h) "") as [Hv|Hv].
    + rewrite (He Hv). symmetry. exact Hv.
    + exact (Hn Hv).
Qed.

Lemma fetched_subject_and_sender_have_defaults_witness :
  Email.subject Cases.emptyHeadersMail = "No Subject" /\
  Email.from Cases.emptyHeadersMail = "Unknown" /\
  Email.subject Scenario.mailB = "Quarterly report" /\
  Email.subject Cases.bareMail = "No Subject" /\
  Email.from Cases.bareMail = "Unknown".
Proof.
  pose proof (fetched_subject_and_sender_have_defaults
                Cases.emptyHeadersMessage Cases.emptyHeadersMail)
    as Hempty.
  pose proof (fetched_subject_and_sender_have_defaults Scenario.msgB
                Scenario.mailB) as HB.
  pose proof (fetched_subject_and_sender_have_defaults Cases.bareMessage
                Cases.bareMail) as Hbare.
  destruct Hempty as (_ & _ & _ & _ & _ & Hsubj & Hfrom & _);
    [vm_compute; reflexivity|].
  destruct HB as (_ & _ & _ & _ & _ & HsubjB & _);
    [vm_compute; reflexivity|].
  destruct Hbare as (_ & _ & Hnos & Hnof & _); [vm_compute; reflexivity|].
  split.
  { apply (Hsubj [] (Header.mk "Subject" "")
             [Header.mk "From" "";
              Header.mk "Date" "Mon, 2 Nov 2026 09:00:00 +0000"]);
      [reflexivity|intros x []|reflexivity|reflexivity]. }
  split.
  { apply (Hfrom [Header.mk "Subject" ""] (Header.mk "From" "")
             [Header.mk "Date" "Mon, 2 Nov 2026 09:00:00 +0000"]);
      [reflexivity|intros x [<-|[]]; discriminate|reflexivity|reflexivity]. }
  split.
  { apply (HsubjB [Header.mk "From" "alice@example.com"]
             (Header.mk "Subject" "Quarterly report")
             [Header.mk "Date" "Mon, 2 Nov 2026 09:00:00 +0000"]);
      [reflexivity|intros x [<-|[]]; discriminate|reflexivity|discriminate]. }
  split.
  { apply Hnos. intros h [<-|[]]. discriminate. }
  apply Hnof. intros h [<-|[]]. discriminate.
Defined.

(** X4. When the payload of a message has a body object that carries no
    data (and no parts of its own), as the container of a multipart
    message has, [getEmails] decodes that body object and never looks at
    [payload.parts]: the body of the message is empty and the filter
    decides on the sender and subject headers alone. *)
Theorem body_object_without_data_hides_parts
    (m : RawMessage.t) (bodyFields : list (string * jsval)) :
  getOpt (RawMessage.payload m) "body" = JObj bodyFields ->
  truthy (assoc "data" bodyFields) = false ->
  truthy (assoc "parts" bodyFields) = false ->
  decodeEmailBody
    (or_else (getOpt (RawMessage.payload m) "body") (RawMessage.payload m))
  = Ok "" /\
  readMessage m
  = Ok (if isPromotionalEmail (RawMessage.headers m) ""
        then None
        else Some (Email.mk (RawMessage.id m)
                     (headerValue
                        (fun h => String.eqb (Header.name h) "Subject")
                        (RawMessage.headers m) "No Subject")
                     (headerValue
                        (fun h => String.eqb (Header.name h) "From")
                        (RawMessage.headers m) "Unknown")
                     (headerValue
                        (fun h => String.eqb (Header.name h) "Date")
                        (RawMessage.headers m) "")
                     "")).
Proof.
  intros Hbody Hdata Hparts.
  assert (Hdec : decodeEmailBody
                   (or_else (getOpt (RawMessage.payload m) "body")
                      (RawMessage.payload m)) = Ok "").
  { rewrite Hbody. unfold or_else, decodeEmailBody. simpl.
    rewrite Hdata, Hparts. reflexivity. }
  split; [exact Hdec|].
  unfold readMessage. rewrite Hdec. simpl.
  destruct (isPromotionalEmail (RawMessage.headers m) ""); reflexivity.
Qed.

Lemma body_object_without_data_hides_parts_witness :
  decodeEmailBody
    (or_else (getOpt (RawMessage.payload Cases.multipartMessage) "body")
       (RawMessage.payload Cases.multipartMessage))
  = Ok "" /\
  readMessage Cases.multipartMessage
  = Ok (if isPromotionalEmail (RawMessage.headers Cases.multipartMessage) ""
        then None
        else Some (Email.mk (RawMessage.id Cases.multipartMessage)
                     (headerValue
                        (fun h => String.eqb (Header.name h) "Subject")
                        (RawMessage.headers Cases.multipartMessage)
                        "No Subject")
                     (headerValue
                        (fun h => String.eqb (Header.name h) "From")
                        (RawMessage.headers Cases.multipartMessage) "Unknown")
                     (headerValue
                        (fun h => String.eqb (Header.name h) "Date")
                        (RawMessage.headers Cases.multipartMessage) "")
                     "")).
Proof.
  apply (body_object_without_data_hides_parts Cases.multipartMessage
           [("size", JNum 0)]); reflexivity.
Defined.

(** ** The decoder on payloads of the Gmail shape *)

Lemma decodeParts_wellShaped (self : jsval -> option (result string))
    (ok : jsval -> bool) (parts : list jsval) :
  (forall arg, ok arg = true -> exists text, self arg = Some (Ok text)) ->
  wellShapedParts ok parts = true ->
  exists text, decodeParts self parts = Some (Ok text).
Proof.
  intros Hself. induction parts as [|part rest IH]; [simpl; eauto|].
  simpl. intros Hw.
  assert (Hu : part <> JUndef) by (intros ->; discriminate Hw).
  assert (Hn : part <> JNull) by (intros ->; discriminate Hw).
  assert (Hw' :
            (if isTextMime (getOpt part "mimeType")
             then ok (getOpt part "body")
             else ok (JObj [("parts", getOpt part "parts")]))
            && wellShapedParts ok rest = true)
    by (destruct part; try congruence; exact Hw).
  clear Hw. apply andb_true_iff in Hw' as [Hpart Hrest].
  rewrite !(get_present part) by assumption.
  destruct (isTextMime (getOpt part "mimeType")).
  - apply Hself. exact Hpart.
  - destruct (truthy (getOpt part "parts")); [|apply IH; exact Hrest].
    destruct (Hself _ Hpart) as [text ->].
    destruct (negb (String.eqb text "")); [eauto|apply IH; exact Hrest].
Qed.

Lemma decodeEmailBody_fuel_wellShaped (n : nat) (body : jsval) :
  wellShaped_fuel n body = true ->
  exists text, decodeEmailBody_fuel n body = Some (Ok text).
Proof.
  revert body. induction n as [|n IH]; intros body; [discriminate|].
  destruct body as [| |b|z|s|items|fields]; try (simpl; eauto; fail).
  - destruct b; simpl; eauto.
  - simpl. destruct (z =? 0)%Z; simpl; eauto.
  - simpl. destruct (String.eqb s ""); simpl; eauto.
  - change (wellShaped_fuel (S n) (JObj fields))
      with (let partsOK :=
              match assoc "parts" fields with
              | JArr items => wellShapedParts (wellShaped_fuel n) items
              | JStr _ => true
              | other => negb (truthy other)
              end in
            match assoc "data" fields with
            | JStr data => if String.eqb data "" then partsOK else true
            | other => negb (truthy other) && partsOK
            end).
    simpl.
    assert (Hparts :
              match assoc "parts" fields with
              | JArr items => wellShapedParts (wellShaped_fuel n) items
              | JStr _ => true
              | other => negb (truthy other)
              end = true ->
              exists text,
                (if truthy (assoc "parts" fields) then
                   match iterate (assoc "parts" fields) with
                   | Throw e => Some (Throw e)
                   | Ok items => decodeParts (decodeEmailBody_fuel n) items
                   end
                 else Some (Ok ""))
                = Some (Ok text)).
    { destruct (assoc "parts" fields) as [| |b|z|s|items|fs]; simpl;
        try (eauto; fail); try discriminate.
      - destruct b; [discriminate|eauto].
      - destruct (z =? 0)%Z; [eauto|discriminate].
      - intros _. destruct (String.eqb s ""); simpl; [eauto|].
        exists "". clear. induction s as [|c s IHs]; [reflexivity|exact IHs].
      - apply decodeParts_wellShaped. exact IH. }
    destruct (assoc "data" fields) as [| |b|z|data|items|fs]; simpl;
      try exact Hparts; try discriminate.
    + destruct b; simpl; [discriminate|exact Hparts].
    + destruct (z =? 0)%Z; simpl; [exact Hparts|discriminate].
    + destruct (String.eqb data ""); simpl; [exact Hparts|eauto].
Qed.

(** X5. On a payload of the Gmail shape (parts that are objects, string
    data, list-valued parts, to any depth) [decodeEmailBody] returns a
    text and does not throw; with it, reading the message in [getEmails]
    does not throw either. *)
Theorem decoder_returns_text_on_gmail_shaped_payloads (m : RawMessage.t) :
  wellShaped
    (or_else (getOpt (RawMessage.payload m) "body") (RawMessage.payload m))
  = true ->
  (exists text,
      decodeEmailBody
        (or_else (getOpt (RawMessage.payload m) "body") (RawMessage.payload m))
      = Ok text) /\
  exists kept, readMessage m = Ok kept.
Proof.
  intros Hw. unfold wellShaped in Hw.
  destruct (decodeEmailBody_fuel_wellShaped _ _ Hw) as [text Ht].
  assert (Hd : decodeEmailBody
                 (or_else (getOpt (RawMessage.payload m) "body")
                    (RawMessage.payload m)) = Ok text)
    by (unfold decodeEmailBody; rewrite Ht; reflexivity).
  split; [eauto|]. unfold readMessage. rewrite Hd. simpl.
  destruct (isPromotionalEmail _ text); eauto.
Qed.

Lemma decoder_returns_text_on_gmail_shaped_payloads_witness :
  (exists text,
      decodeEmailBody
        (or_else (getOpt (RawMessage.payload Scenario.msgB) "body")
           (RawMessage.payload Scenario.msgB))
      = Ok text) /\
  exists kept, readMessage Scenario.msgB = Ok kept.
Proof.
  apply (decoder_returns_text_on_gmail_shaped_payloads Scenario.msgB).
  vm_compute. reflexivity.
Defined.

(** ** The filter *)

Lemma containsCI_app_r (a b k : string) :
  containsCI a k -> containsCI (b ++ a) k.
Proof.
  intros (pre & mid & post & -> & H).
  exists (b ++ pre)%string, mid, post.
  rewrite !string_app_assoc. auto.
Qed.

(** X6. The filter never lets a message through because text was added:
    a message that is promotional stays promotional when anything is
    appended to its body; and a keyword in the sender or the subject
    decides alone, whatever the body. The fields are joined without a
    separator, so a keyword that starts at the end of the sender and ends
    in the subject (or body) counts as well. *)
Theorem promotional_is_stable_under_more_body_text
    (headers : list Header.t) (body : string) :
  (isPromotionalEmail headers body = true ->
   forall more, isPromotionalEmail headers (body ++ more) = true) /\
  (forall keyword,
      In keyword promotionalKeywords ->
      containsCI (fromHeader headers ++ subjectHeader headers) keyword ->
      isPromotionalEmail headers body = true) /\
  (forall keyword x y,
      In keyword promotionalKeywords ->
      (fromHeader headers = x ++ y)%string ->
      containsCI (y ++ subjectHeader headers ++ body) keyword ->
      isPromotionalEmail headers body = true).
Proof.
  split; [|split].
  - intros Hp more. apply isPromotionalEmail_spec in Hp as (kw & Hin & Hc).
    apply isPromotionalEmail_spec. exists kw. split; [exact Hin|].
    rewrite <- !string_app_assoc. apply containsCI_app_l.
    rewrite string_app_assoc. exact Hc.
  - intros kw Hin Hc. apply isPromotionalEmail_spec. exists kw.
    split; [exact Hin|]. rewrite <- string_app_assoc.
    apply containsCI_app_l. exact Hc.
  - intros kw x y Hin Hx Hc. apply isPromotionalEmail_spec. exists kw.
    split; [exact Hin|]. rewrite Hx, string_app_assoc.
    apply containsCI_app_r. exact Hc.
Qed.

Lemma promotional_is_stable_under_more_body_text_witness :
  (forall more,
      isPromotionalEmail (RawMessage.headers Scenario.msgA)
        ("Save 20% today" ++ more) = true) /\
  isPromotionalEmail
    (Scenario.headersOf "alice@example.de" "Alpha release") "see you" = true.
Proof.
  split.
  - apply (proj1 (promotional_is_stable_under_more_body_text
                    (RawMessage.headers Scenario.msgA) "Save 20% today")).
    vm_compute. reflexivity.
  - apply (proj2 (proj2 (promotional_is_stable_under_more_body_text
                           (Scenario.headersOf "alice@example.de"
                              "Alpha release") "see you"))
             "deal" "alice@example." "de").
    + vm_compute. tauto.
    + reflexivity.
    + apply includes_lower_containsCI. vm_compute. reflexivity.
Defined.

(** ** The extractor and its batch loop *)

Lemma taskFields_present (parsed : jsval) :
  parsed <> JUndef -> parsed <> JNull ->
  taskFields parsed
  = Ok (if truthy (getOpt parsed "noTask") then None
        else Some (getOpt parsed "description",
                   or_else (getOpt parsed "priority") (JStr "medium"),
                   getOpt parsed "dueDate",
                   or_else (getOpt parsed "context") (JStr ""))).
Proof.
  intros Hu Hn. unfold taskFields.
  rewrite !(get_present parsed) by assumption. simpl.
  destruct (truthy (getOpt parsed "noTask")); reflexivity.
Qed.

Lemma extractTasksFromEmail_run (env : Env) (email : Email.t) (w : World) :
  extractTasksFromEmail env email w
  = match usableAnswer (model env (modelCalls w) email) with
    | Some parsed =>
        (Ok (Some (builtTask env email w parsed)),
         setStore (<[makeTaskId (Email.id email) (clock env (clockReads w))
                     := builtTask env email w parsed]> (taskStore w))
           (advanceClock 2 (afterAsk email w)))
    | None => (Ok None, afterAsk email w)
    end.
Proof.
  unfold extractTasksFromEmail, askModel, readClock; unfold_m.
  destruct (model env (modelCalls w) email) as [| |parsed]; try reflexivity.
  destruct parsed as [| |b|z|s|items|fields]; try reflexivity;
    simpl usableAnswer;
    (rewrite taskFields_present by discriminate);
    destruct (truthy _); reflexivity.
Qed.

(** X7. [extractTasksFromEmail] builds a task exactly from an answer that
    parses to a value other than [null] without a truthy [noTask]; then
    it reads the clock twice and stores the task under the identifier made
    from the first reading. For every other answer (a failed call, text
    that is not JSON, [null], a truthy [noTask] even beside a full set of
    task fields) it returns no task, leaves the store alone and does not
    read the clock. In both cases it asks the model once. *)
Theorem task_built_exactly_from_usable_answer
    (env : Env) (email : Email.t) (w : World) :
  (forall parsed,
      usableAnswer (model env (modelCalls w) email) = Some parsed ->
      exists task w',
        extractTasksFromEmail env email w = (Ok (Some task), w') /\
        task = builtTask env email w parsed /\
        Task.createdAt task = clock env (S (clockReads w)) /\
        taskStore w' = <[Task.id task := task]> (taskStore w) /\
        clockReads w' = 2 + clockReads w /\
        modelCalls w' = S (modelCalls w)) /\
  (usableAnswer (model env (modelCalls w) email) = None ->
   exists w',
     extractTasksFromEmail env email w = (Ok None, w') /\
     taskStore w' = taskStore w /\
     clockReads w' = clockReads w /\
     modelCalls w' = S (modelCalls w)) /\
  (forall task w',
      extractTasksFromEmail env email w = (Ok (Some task), w') ->
      exists parsed,
        usableAnswer (model env (modelCalls w) email) = Some parsed).
Proof.
  rewrite extractTasksFromEmail_run. split; [|split].
  - intros parsed ->. eexists _, _. split; [reflexivity|]. simpl. auto.
  - intros ->. eexists. split; [reflexivity|]. simpl. auto.
  - intros task w'.
    destruct (usableAnswer _) as [parsed|]; [eauto|discriminate].
Qed.

Lemma task_built_exactly_from_usable_answer_witness :
  (exists task w',
      extractTasksFromEmail Scenario.envABC Scenario.mailB Scenario.world0
      = (Ok (Some task), w') /\
      task = builtTask Scenario.envABC Scenario.mailB Scenario.world0
               Scenario.answerTask /\
      Task.createdAt task
      = clock Scenario.envABC (S (clockReads Scenario.world0)) /\
      taskStore w' = <[Task.id task := task]> (taskStore Scenario.world0) /\
      clockReads w' = 2 + clockReads Scenario.world0 /\
      modelCalls w' = S (modelCalls Scenario.world0)) /\
  (exists w',
      extractTasksFromEmail Scenario.envABC Scenario.mailC Scenario.world0
      = (Ok None, w') /\
      taskStore w' = taskStore Scenario.world0 /\
      clockReads w' = clockReads Scenario.world0 /\
      modelCalls w' = S (modelCalls Scenario.world0)).
Proof.
  split.
  - apply (proj1 (task_built_exactly_from_usable_answer Scenario.envABC
                    Scenario.mailB Scenario.world0)).
    reflexivity.
  - apply (proj1 (proj2 (task_built_exactly_from_usable_answer Scenario.envABC
                           Scenario.mailC Scenario.world0))).
    reflexivity.
Defined.

Lemma builtTask_fields (env : Env) (email : Email.t) (w : World)
    (parsed : jsval) :
  Task.id (builtTask env email w parsed)
  = makeTaskId (Email.id email) (clock env (clockReads w)) /\
  Task.emailId (builtTask env email w parsed) = Email.id email /\
  Task.subject (builtTask env email w parsed) = Email.subject email /\
  Task.sender (builtTask env email w parsed) = Email.from email /\
  Task.status (builtTask env email w parsed) = pending.
Proof. repeat split. Qed.

(** Everything the batch loop does to the state. *)
Lemma extractAll_effects (env : Env) (emails : list Email.t) :
  forall (w w' : World) (tasks : list Task.t),
    extractAll env emails w = (Ok tasks, w') ->
    length tasks <= length emails /\
    modelCalls w' = modelCalls w + length emails /\
    clockReads w' = clockReads w + 2 * length tasks /\
    size (taskStore w') <= size (taskStore w) + length tasks /\
    (forall key, is_Some (taskStore w !! key) ->
                 is_Some (taskStore w' !! key)) /\
    (forall key task, taskStore w' !! key = Some task ->
                      taskStore w !! key = Some task \/
                      (In task tasks /\ Task.id task = key)) /\
    (forall task, In task tasks ->
                  is_Some (taskStore w' !! Task.id task) /\
                  Task.status task = pending /\
                  exists email,
                    In email emails /\
                    Task.emailId task = Email.id email /\
                    Task.subject task = Email.subject email /\
                    Task.sender task = Email.from email).
Proof.
  induction emails as [|email rest IH]; intros w w' tasks.
  - simpl. unfold ret. intros [= <- <-]. simpl.
    repeat split; try lia; auto; try (intros ? []).
  - simpl. unfold bind. rewrite extractTasksFromEmail_run.
    destruct (usableAnswer _) as [parsed|].
    + set (task := builtTask env email w parsed).
      set (w1 := setStore _ _).
      destruct (extractAll env rest w1) as [[tail|e] w2] eqn:Hrest;
        [|discriminate].
      unfold ret. intros [= <- <-].
      destruct (IH w1 w2 tail Hrest)
        as (Hlen & Hmodel & Hclock & Hsize & Hkeep & Hfrom & Htasks).
      assert (Hsz1 : size (taskStore w1) <= S (size (taskStore w))).
      { unfold w1. simpl. rewrite map_size_insert.
        destruct (taskStore w !! _); simpl; lia. }
      split; [simpl; lia|].
      split; [rewrite Hmodel; simpl; lia|].
      split; [rewrite Hclock; simpl; lia|].
      split; [simpl; lia|].
      split.
      { intros key Hkey. apply Hkeep. unfold w1. simpl.
        apply lookup_insert_is_Some'. right. exact Hkey. }
      split.
      { intros key t Ht. destruct (Hfrom key t Ht) as [Hold|[Hin Hid]].
        - unfold w1 in Hold. simpl in Hold.
          apply lookup_insert_Some in Hold as [[<- <-]|[_ Hold]].
          + right. split; [left; reflexivity|reflexivity].
          + left. exact Hold.
        - right. split; [right; exact Hin|exact Hid]. }
      intros t [<-|Hin].
      * split.
        { apply Hkeep. unfold w1. simpl. apply lookup_insert_is_Some'.
          left. reflexivity. }
        split; [reflexivity|].
        exists email. split; [left; reflexivity|]. repeat split.
      * destruct (Htasks t Hin) as (Hs & Hp & e & He & Hrest').
        split; [exact Hs|]. split; [exact Hp|].
        exists e. split; [right; exact He|exact Hrest'].
    + destruct (extractAll env rest (afterAsk email w)) as [[tail|e] w2]
        eqn:Hrest; [|discriminate].
      unfold ret. intros [= <- <-].
      destruct (IH _ w2 tail Hrest)
        as (Hlen & Hmodel & Hclock & Hsize & Hkeep & Hfrom & Htasks).
      simpl in *.
      split; [lia|]. split; [lia|]. split; [lia|]. split; [lia|].
      split; [exact Hkeep|]. split; [exact Hfrom|].
      intros t Hin. destruct (Htasks t Hin) as (Hs & Hp & e & He & Hrest').
      split; [exact Hs|]. split; [exact Hp|].
      exists e. split; [right; exact He|exact Hrest'].
Qed.

(** X8. What a batch of extractions costs and yields, whatever the model
    answers: one model call for every message, two clock readings for
    every task; at most one task for each message, each pending, carrying
    the identifier, subject and sender of a message of the batch and found
    under its identifier in the store afterwards; and the store grows by
    at most the number of tasks returned. *)
Theorem batch_extraction_cost_and_yield
    (env : Env) (emails : list Email.t) (w w' : World)
    (tasks : list Task.t) :
  extractAll env emails w = (Ok tasks, w') ->
  length tasks <= length emails /\
  modelCalls w' = modelCalls w + length emails /\
  clockReads w' = clockReads w + 2 * length tasks /\
  size (taskStore w') <= size (taskStore w) + length tasks /\
  forall task, In task tasks ->
    is_Some (taskStore w' !! Task.id task) /\
    Task.status task = pending /\
    exists email,
      In email emails /\
      Task.emailId task = Email.id email /\
      Task.subject task = Email.subject email /\
      Task.sender task = Email.from email.
Proof.
  intros H.
  destruct (extractAll_effects env emails w w' tasks H)
    as (H1 & H2 & H3 & H4 & _ & _ & H7).
  auto.
Qed.

Lemma batch_extraction_cost_and_yield_witness :
  let w' :=
    snd (extractAll Scenario.envABC [Scenario.mailB; Scenario.mailC]
           Scenario.world0) in
  let tasks := [Scenario.taskOfB 1700000000000 1700000000001] in
  length tasks <= length [Scenario.mailB; Scenario.mailC] /\
  modelCalls w'
  = modelCalls Scenario.world0 + length [Scenario.mailB; Scenario.mailC] /\
  clockReads w' = clockReads Scenario.world0 + 2 * length tasks /\
  size (taskStore w') <= size (taskStore Scenario.world0) + length tasks /\
  forall task, In task tasks ->
    is_Some (taskStore w' !! Task.id task) /\
    Task.status task = pending /\
    exists email,
      In email [Scenario.mailB; Scenario.mailC] /\
      Task.emailId task = Email.id email /\
      Task.subject task = Email.subject email /\
      Task.sender task = Email.from email.
Proof.
  intros w' tasks.
  apply (batch_extraction_cost_and_yield Scenario.envABC
           [Scenario.mailB; Scenario.mailC] Scenario.world0 w' tasks).
  vm_compute. reflexivity.
Defined.

(** ** The store under the tool's actions *)

Lemma evolves_refl (t : Task.t) : evolves t t.
Proof. unfold evolves. repeat split; auto. Qed.

Lemma evolves_setStatus (t : Task.t) : evolves t (Task.setStatus completed t).
Proof. unfold evolves. simpl. repeat split; auto. Qed.

Lemma evolves_pushNote (note : string) (t : Task.t) :
  evolves t (Task.pushNote note t).
Proof.
  unfold evolves. simpl. repeat split; auto.
  exists [JStr note]. reflexivity.
Qed.

(** The worlds an action other than [extractTasks] can lead to. *)
Lemma other_actions_world (env : Env) (input : ToolInput.t) (w : World) :
  ToolInput.action input <> ActExtractTasks ->
  exists result,
    fst (emailTool_execute env input w) = result /\
    (snd (emailTool_execute env input w) = w \/
     snd (emailTool_execute env input w) = afterFetch w \/
     exists key t t',
       taskStore w !! key = Some t /\ evolves t t' /\ Task.id t' = Task.id t /\
       snd (emailTool_execute env input w)
       = setStore (<[key := t']> (taskStore w)) w).
Proof.
  intros Hact. eexists. split; [reflexivity|].
  unfold emailTool_execute.
  destruct (ToolInput.action input); try congruence.
  - right. left. unfold bind. rewrite getEmails_run.
    destruct (match gmail env _ _ with ListFails => _ | Listed _ => _ end);
      reflexivity.
  - destruct (missing (ToolInput.taskId input)); [left; reflexivity|].
    unfold bind, markTaskComplete.
    destruct (taskStore w !! default "" (ToolInput.taskId input)) as [t|] eqn:Ht;
      [|left; reflexivity].
    right. right. exists (default "" (ToolInput.taskId input)), t,
      (Task.setStatus completed t).
    split; [exact Ht|]. split; [apply evolves_setStatus|]. split; reflexivity.
  - destruct (missing (ToolInput.taskId input) || missing (ToolInput.note input));
      [left; reflexivity|].
    unfold bind, addTaskNote.
    destruct (taskStore w !! default "" (ToolInput.taskId input)) as [t|] eqn:Ht;
      [|left; reflexivity].
    right. right. exists (default "" (ToolInput.taskId input)), t,
      (Task.pushNote (default "" (ToolInput.note input)) t).
    split; [exact Ht|]. split; [apply evolves_pushNote|]. split; reflexivity.
  - left. reflexivity.
Qed.

(** X9. The actions [getEmails], [markComplete], [addNote] and
    [listTasks] never add or remove a task, and in a stored task they
    change nothing but the status, which can only become completed, and
    the notes, which can only grow at the end: identifier, source message,
    subject, description, sender, priority, due date and creation time
    stay as they were. The execution log is not touched. *)
Theorem stored_tasks_only_evolve_under_other_actions
    (env : Env) (input : ToolInput.t) (w : World) :
  ToolInput.action input <> ActExtractTasks ->
  (forall key t,
      taskStore w !! key = Some t ->
      exists t',
        taskStore (snd (emailTool_execute env input w)) !! key = Some t' /\
        evolves t t') /\
  (forall key,
      taskStore w !! key = None ->
      taskStore (snd (emailTool_execute env input w)) !! key = None) /\
  size (taskStore (snd (emailTool_execute env input w))) = size (taskStore w) /\
  executionLogs (snd (emailTool_execute env input w)) = executionLogs w.
Proof.
  intros Hact.
  destruct (other_actions_world env input w Hact)
    as (result & _ & [->|[->|(k & t & t' & Hk & Hev & _ & ->)]]).
  - repeat split; auto. intros key t Ht. exists t. auto using evolves_refl.
  - repeat split; auto. intros key t Ht. exists t. auto using evolves_refl.
  - simpl. split; [|split; [|split]].
    + intros key t0 Ht0. destruct (decide (k = key)) as [<-|Hne].
      * rewrite lookup_insert_eq. exists t'. split; [reflexivity|].
        rewrite Hk in Ht0. injection Ht0 as <-. exact Hev.
      * rewrite lookup_insert_ne by exact Hne. exists t0.
        auto using evolves_refl.
    + intros key Hnone. apply lookup_insert_None. split; [exact Hnone|].
      intros <-. congruence.
    + apply map_size_insert_Some. rewrite Hk. eauto.
    + reflexivity.
Qed.

Lemma stored_tasks_only_evolve_under_other_actions_witness :
  let input := markCompleteInput (Some (makeTaskId "B" 5)) in
  (forall key t,
      taskStore Scenario.worldWithB !! key = Some t ->
      exists t',
        taskStore (snd (emailTool_execute Scenario.envABC input
                          Scenario.worldWithB)) !! key = Some t' /\
        evolves t t') /\
  (forall key,
      taskStore Scenario.worldWithB !! key = None ->
      taskStore (snd (emailTool_execute Scenario.envABC input
                        Scenario.worldWithB)) !! key = None) /\
  size (taskStore (snd (emailTool_execute Scenario.envABC input
                          Scenario.worldWithB)))
  = size (taskStore Scenario.worldWithB) /\
  executionLogs (snd (emailTool_execute Scenario.envABC input
                        Scenario.worldWithB))
  = executionLogs Scenario.worldWithB.
Proof.
  intros input.
  apply (stored_tasks_only_evolve_under_other_actions Scenario.envABC input
           Scenario.worldWithB).
  discriminate.
Defined.

Lemma storeKeyed_insert (st : gmap string Task.t) (task : Task.t) :
  storeKeyed st -> storeKeyed (<[Task.id task := task]> st).
Proof.
  intros Hk key t Ht.
  apply lookup_insert_Some in Ht as [[<- <-]|[_ Ht]]; [reflexivity|].
  apply Hk. exact Ht.
Qed.

(** X10. Under every action of the tool, [extractTasks] included: no task
    is ever removed from the store; if every key was the identifier of its
    task before, it is so afterwards; and a task found in the store after
    [extractTasks] is either exactly the task that was there before or a
    task this call built and returned. *)
Theorem store_keeps_its_tasks_and_keys
    (env : Env) (input : ToolInput.t) (w : World) :
  (forall key,
      is_Some (taskStore w !! key) ->
      is_Some (taskStore (snd (emailTool_execute env input w)) !! key)) /\
  (storeKeyed (taskStore w) ->
   storeKeyed (taskStore (snd (emailTool_execute env input w)))) /\
  (ToolInput.action input = ActExtractTasks ->
   forall key task,
     taskStore (snd (emailTool_execute env input w)) !! key = Some task ->
     taskStore w !! key = Some task \/
     exists result tasks,
       fst (emailTool_execute env input w) = Ok result /\
       ToolResult.tasks result = Some tasks /\
       In task tasks /\ Task.id task = key).
Proof.
  assert (Hcases : ToolInput.action input = ActExtractTasks \/
                   ToolInput.action input <> ActExtractTasks)
    by (destruct (ToolInput.action input); auto; right; discriminate).
  destruct Hcases as [Hact|Hact].
  - unfold emailTool_execute. rewrite Hact. unfold bind.
    rewrite getEmails_run.
    destruct (match gmail env _ _ with ListFails => _ | Listed _ => _ end)
      as [emails|e]; simpl.
    + destruct (extractAll env emails (afterFetch w)) as [[tasks|e] w'] eqn:Hx.
      * destruct (extractAll_effects env emails _ _ _ Hx)
          as (_ & _ & _ & _ & Hkeep & Hfrom & _).
        simpl in *. split; [exact Hkeep|]. split.
        -- intros Hk key task Ht.
           destruct (Hfrom key task Ht) as [Hold|[_ Hid]]; [|exact Hid].
           apply Hk. exact Hold.
        -- intros _ key task Ht.
           destruct (Hfrom key task Ht) as [Hold|[Hin Hid]]; [left; exact Hold|].
           right. eexists _, tasks. repeat split; eauto.
      * destruct (extractAll_total env emails (afterFetch w))
          as (ts & w2 & Hok & _). congruence.
    + split; [auto|]. split; [auto|]. intros _ key task Ht. left. exact Ht.
  - destruct (other_actions_world env input w Hact)
      as (result & _ & [->|[->|(k & t & t' & Hk & _ & Hid & ->)]]).
    + split; [auto|]. split; [auto|]. congruence.
    + split; [auto|]. split; [auto|]. congruence.
    + simpl. split; [|split; [|congruence]].
      * intros key Hkey. apply lookup_insert_is_Some'. right. exact Hkey.
      * intros Hkeyed. assert (Hkt : Task.id t' = k).
        { rewrite Hid. apply Hkeyed. exact Hk. }
        rewrite <- Hkt. apply storeKeyed_insert. exact Hkeyed.
Qed.

Lemma store_keeps_its_tasks_and_keys_witness :
  let input := extractTasksInput (Some 20) in
  is_Some
    (taskStore (snd (emailTool_execute Scenario.envABC input
                       Scenario.worldWithB)) !! makeTaskId "B" 5) /\
  storeKeyed
    (taskStore (snd (emailTool_execute Scenario.envABC input
                       Scenario.worldWithB))).
Proof.
  intros input. split.
  - apply (proj1 (store_keeps_its_tasks_and_keys Scenario.envABC input
                    Scenario.worldWithB)).
    exists (Scenario.taskOfB 5 6). vm_compute. reflexivity.
  - apply (proj1 (proj2 (store_keeps_its_tasks_and_keys Scenario.envABC input
                           Scenario.worldWithB))).
    intros key task Ht. unfold Scenario.worldWithB in Ht. simpl in Ht.
    apply lookup_singleton_Some in Ht as [<- <-]. reflexivity.
Defined.

Lemma setStatus_pushNote (note : string) (t : Task.t) :
  Task.setStatus completed (Task.pushNote note t)
  = Task.pushNote note (Task.setStatus completed t).
Proof. reflexivity. Qed.

(** X11. Completing a task and adding a note commute: for any two
    identifiers, the same or different, present or not, the two orders of
    [markTaskComplete] and [addTaskNote] return the same results and leave
    the same state. In particular a note can be added to a completed
    task, and completing keeps the notes. *)
Theorem complete_and_note_commute (id1 id2 note : string) (w : World) :
  markThenNote id1 id2 note w = noteThenMark id1 id2 note w.
Proof.
  unfold markThenNote, noteThenMark, bind, ret, markTaskComplete, addTaskNote.
  destruct (decide (id1 = id2)) as [<-|Hne].
  - destruct (taskStore w !! id1) as [t|] eqn:H1; simpl.
    + rewrite !lookup_insert_eq. simpl.
      rewrite !insert_insert_eq, setStatus_pushNote. reflexivity.
    + rewrite H1. reflexivity.
  - destruct (taskStore w !! id1) as [t1|] eqn:H1;
      destruct (taskStore w !! id2) as [t2|] eqn:H2; simpl;
      rewrite ?lookup_insert_ne by congruence;
      rewrite ?H1, ?H2; simpl; try reflexivity.
    rewrite (insert_insert_ne _ id2 id1) by congruence. reflexivity.
Qed.

(** X12. The [listTasks] action changes nothing and always succeeds; the
    list it returns holds exactly the tasks of the store, as many as the
    store has keys. A task [extractTasksFromEmail] has just returned is in
    the list. *)
Theorem listTasks_lists_exactly_the_store (env : Env) (w : World) :
  exists tasks text,
    emailTool_execute env listTasksInput w
    = (Ok (ToolResult.mk true None (Some tasks) text), w) /\
    length tasks = size (taskStore w) /\
    (forall task, In task tasks <-> exists key, taskStore w !! key = Some task) /\
    forall email w0 task,
      extractTasksFromEmail env email w0 = (Ok (Some task), w) ->
      In task tasks.
Proof.
  assert (Hin : forall task,
             In task (map_to_list (taskStore w)).*2
             <-> exists key, taskStore w !! key = Some task).
  { intros task. rewrite <- list_elem_of_In, list_elem_of_fmap. split.
    - intros ([key t] & -> & Hkt). exists key.
      apply elem_of_map_to_list. exact Hkt.
    - intros [key Hk]. exists (key, task). split; [reflexivity|].
      apply elem_of_map_to_list. exact Hk. }
  eexists _, _. split; [reflexivity|].
  split; [rewrite length_fmap; apply length_map_to_list|].
  split; [exact Hin|].
  intros email w0 task Hx. apply Hin. exists (Task.id task).
  rewrite extractTasksFromEmail_run in Hx.
  destruct (usableAnswer _) as [parsed|]; [|discriminate].
  injection Hx as <- <-. simpl. apply lookup_insert_eq.
Qed.

Lemma listTasks_lists_exactly_the_store_witness :
  let w :=
    snd (extractTasksFromEmail Scenario.envABC Scenario.mailB Scenario.world0) in
  exists tasks text,
    emailTool_execute Scenario.envABC listTasksInput w
    = (Ok (ToolResult.mk true None (Some tasks) text), w) /\
    length tasks = size (taskStore w) /\
    (forall task, In task tasks <-> exists key, taskStore w !! key = Some task) /\
    In (Scenario.taskOfB 1700000000000 1700000000001) tasks.
Proof.
  intros w.
  destruct (listTasks_lists_exactly_the_store Scenario.envABC w)
    as (tasks & text & Hrun & Hlen & Hin & Hnew).
  exists tasks, text.
  split; [exact Hrun|]. split; [exact Hlen|]. split; [exact Hin|].
  apply (Hnew Scenario.mailB Scenario.world0). vm_compute. reflexivity.
Defined.

(** X13. The [markComplete] and [addNote] actions never throw, and a
    negative result means that nothing at all was changed. A positive
    result means the named task was in the store and is now completed,
    respectively has the note as its last note; for [addNote] the note is
    then non-empty, since the action turns an empty or missing note (or
    identifier) away before looking at the store. *)
Theorem tool_mutations_report_what_they_did
    (env : Env) (taskId note : option string) (w : World) :
  (exists result w',
      emailTool_execute env (markCompleteInput taskId) w = (Ok result, w') /\
      (ToolResult.success result = false -> w' = w) /\
      (ToolResult.success result = true ->
       exists key task,
         taskId = Some key /\ key <> "" /\
         taskStore w !! key = Some task /\
         taskStore w' = <[key := Task.setStatus completed task]> (taskStore w))) /\
  (exists result w',
      emailTool_execute env (addNoteInput taskId note) w = (Ok result, w') /\
      (ToolResult.success result = false -> w' = w) /\
      (ToolResult.success result = true ->
       exists key text task,
         taskId = Some key /\ key <> "" /\
         note = Some text /\ text <> "" /\
         taskStore w !! key = Some task /\
         taskStore w' = <[key := Task.pushNote text task]> (taskStore w))) /\
  (missing taskId || missing note = true ->
   emailTool_execute env (addNoteInput taskId note) w
   = (Ok (ToolResult.mk false None None "Task ID and note are required"), w)).
Proof.
  assert (Hmiss : forall s : option string,
             missing s = false -> exists v, s = Some v /\ v <> "").
  { intros [v|]; simpl; [|discriminate]. intros Hv. exists v.
    split; [reflexivity|]. apply String.eqb_neq. exact Hv. }
  split; [|split].
  - unfold emailTool_execute, markCompleteInput. simpl.
    destruct (missing taskId) eqn:Hm.
    + eexists _, w. split; [reflexivity|]. simpl. split; [auto|discriminate].
    + destruct (Hmiss taskId Hm) as (key & -> & Hkey). simpl.
      unfold bind, markTaskComplete.
      destruct (taskStore w !! key) as [task|] eqn:Hk.
      * eexists _, _. split; [reflexivity|]. simpl.
        split; [discriminate|]. intros _. exists key, task. auto.
      * eexists _, w. split; [reflexivity|]. simpl. split; [auto|discriminate].
  - unfold emailTool_execute, addNoteInput. simpl.
    destruct (missing taskId) eqn:Hm; simpl.
    + eexists _, w. split; [reflexivity|]. simpl. split; [auto|discriminate].
    + destruct (missing note) eqn:Hn; simpl.
      * eexists _, w. split; [reflexivity|]. simpl. split; [auto|discriminate].
      * destruct (Hmiss taskId Hm) as (key & -> & Hkey).
        destruct (Hmiss note Hn) as (text & -> & Htext). simpl.
        unfold bind, addTaskNote.
        destruct (taskStore w !! key) as [task|] eqn:Hk.
        -- eexists _, _. split; [reflexivity|]. simpl.
           split; [discriminate|]. intros _. exists key, text, task. auto 10.
        -- eexists _, w. split; [reflexivity|]. simpl.
           split; [auto|discriminate].
  - intros Hm. unfold emailTool_execute, addNoteInput. simpl.
    rewrite Hm. reflexivity.
Qed.

Lemma tool_mutations_report_what_they_did_witness :
  emailTool_execute Scenario.envABC
    (addNoteInput (Some (makeTaskId "B" 5)) (Some "")) Scenario.worldWithB
  = (Ok (ToolResult.mk false None None "Task ID and note are required"),
     Scenario.worldWithB).
Proof.
  apply (proj2 (proj2 (tool_mutations_report_what_they_did Scenario.envABC
                         (Some (makeTaskId "B" 5)) (Some "")
                         Scenario.worldWithB))).
  reflexivity.
Defined.

(** ** The workflow *)

Lemma fetch_cases (env : Env) (maxResults : nat) (w : World) :
  (exists messages emails,
      gmail env (gmailCalls w) maxResults = Listed messages /\
      readMessages messages = Ok emails) \/
  (forall messages emails,
      gmail env (gmailCalls w) maxResults = Listed messages ->
      readMessages messages <> Ok emails).
Proof.
  destruct (gmail env (gmailCalls w) maxResults) as [|messages];
    [right; discriminate|].
  destruct (readMessages messages) as [emails|e] eqn:Hr.
  - left. eauto.
  - right. intros ms es [= <-]. rewrite Hr. discriminate.
Qed.

Lemma extractTasksStep_fails (env : Env) (context : Context.t) (w : World) :
  (forall messages emails,
      gmail env (gmailCalls w) 20 = Listed messages ->
      readMessages messages <> Ok emails) ->
  extractTasksStep (emailTool_execute env) context w
  = (Throw fetchError, afterFetch w).
Proof.
  intros Hbad. unfold extractTasksStep; unfold_m.
  pose proof (extractTasks_action_fails env (Some 20) w Hbad) as Hrun.
  unfold extractTasksInput in Hrun. rewrite Hrun. reflexivity.
Qed.

(** X14. A run of the workflow over the tool of this repository ends in
    one of two ways. Either it succeeds: it has then fetched twice,
    handed the eligible messages of the second fetch to the extractor, and
    appended exactly one log entry, with status success, the number of
    eligible messages of the first fetch, the number of tasks returned and
    the clock reading taken after the extractions; the summary reports the
    size of the store and the store has grown by at most the number of
    tasks. Or it fails with "Failed to fetch emails from Gmail", and then
    store, execution log and the record of extracted messages are as
    before: no entry with status error is ever written. *)
Theorem run_appends_one_success_entry_or_nothing (env : Env) (w : World) :
  (exists (summary : Summary.t) (w' : World) (entry : Log.t)
      (emails1 emails2 : list Email.t) (tasks : list Task.t),
      taskRefreshWorkflow_execute env w = (Ok summary, w') /\
      executionLogs w' = executionLogs w ++ [entry] /\
      Log.status entry = LogStatus.success /\
      Log.error entry = None /\
      Log.emailsChecked entry = length emails1 /\
      Log.tasksExtracted entry = length tasks /\
      Log.timestamp entry = clock env (clockReads w + 2 * length tasks) /\
      fetchEmailsStep (emailTool_execute env) w
      = (Ok (emails1, length emails1), afterFetch w) /\
      submitted w' = submitted w ++ emails2 /\
      length tasks <= length emails2 /\
      Summary.success summary = true /\
      Summary.totalTasks summary = size (taskStore w') /\
      Summary.newTasks summary = Some (length tasks) /\
      size (taskStore w') <= size (taskStore w) + length tasks /\
      gmailCalls w' = 2 + gmailCalls w) \/
  (exists w',
      taskRefreshWorkflow_execute env w = (Throw fetchError, w') /\
      executionLogs w' = executionLogs w /\
      taskStore w' = taskStore w /\
      submitted w' = submitted w /\
      modelCalls w' = modelCalls w).
Proof.
  unfold taskRefreshWorkflow_execute, runSteps, bind.
  destruct (fetch_cases env 20 w) as [(ms1 & emails1 & Hg1 & Hr1)|Hbad1].
  - pose proof (fetchEmailsStep_ok env w ms1 emails1 Hg1 Hr1) as Hstep1.
    rewrite Hstep1. simpl.
    destruct (fetch_cases env 20 (afterFetch w))
      as [(ms2 & emails2 & Hg2 & Hr2)|Hbad2].
    + destruct (extractTasksStep_ok env
                  (Context.mk (Some emails1) (Some (length emails1)) None None)
                  (afterFetch w) ms2 emails2 Hg2 Hr2)
        as (tasks & w2 & Hstep2 & Hx & Hs & Hc & Hl).
      rewrite Hstep2. simpl.
      destruct (updateTaskListStep_real_tool env
                  (Context.mk (Some emails1) (Some (length emails1))
                     (Some tasks) (Some (length tasks))) w2)
        as (text & Hstep3).
      rewrite Hstep3.
      destruct (extractAll_effects env emails2 _ _ _ Hx)
        as (Hlen & _ & Hclock & Hsize & _).
      simpl in *. left.
      eexists _, _, _, emails1, emails2, tasks.
      split; [reflexivity|]. simpl. rewrite Hl, Hclock, Hs, Hc.
      repeat split; auto.
    + rewrite (extractTasksStep_fails env _ (afterFetch w) Hbad2).
      right. eexists. split; [reflexivity|]. simpl. auto.
  - rewrite (fetchEmailsStep_fails env w Hbad1).
    right. eexists. split; [reflexivity|]. simpl. auto.
Qed.

(** X15. The first two steps add no state change of their own and no
    error of their own beyond two: over any tool, the world after the step
    is the world after the tool call; an exception of the tool is passed
    on as it is; a result with [success: false] becomes the error "Failed
    to fetch emails" (step 1) or "Failed to extract tasks" (step 2); and a
    step that returns has taken its list from a successful result and
    reports that list's length as the count. *)
Theorem first_two_steps_relay_the_tool
    (execute : ToolInput.t -> M ToolResult.t) (context : Context.t)
    (w : World) :
  let call1 := execute (getEmailsInput (Some 20)) w in
  let call2 := execute (extractTasksInput (Some 20)) w in
  snd (fetchEmailsStep execute w) = snd call1 /\
  snd (extractTasksStep execute context w) = snd call2 /\
  (forall e, fst call1 = Throw e -> fst (fetchEmailsStep execute w) = Throw e) /\
  (forall e, fst call2 = Throw e ->
             fst (extractTasksStep execute context w) = Throw e) /\
  (forall result,
      fst call1 = Ok result -> ToolResult.success result = false ->
      fst (fetchEmailsStep execute w)
      = Throw (ErrorObj "Failed to fetch emails")) /\
  (forall result,
      fst call2 = Ok result -> ToolResult.success result = false ->
      fst (extractTasksStep execute context w)
      = Throw (ErrorObj "Failed to extract tasks")) /\
  (forall emails n,
      fst (fetchEmailsStep execute w) = Ok (emails, n) ->
      n = length emails /\
      exists result,
        fst call1 = Ok result /\ ToolResult.success result = true /\
        ToolResult.emails result = Some emails) /\
  (forall tasks n,
      fst (extractTasksStep execute context w) = Ok (tasks, n) ->
      n = length tasks /\
      exists result,
        fst call2 = Ok result /\ ToolResult.success result = true /\
        ToolResult.tasks result = Some tasks).
Proof.
  unfold fetchEmailsStep, extractTasksStep, getEmailsInput, extractTasksInput;
    unfold_m.
  destruct (execute (ToolInput.mk ActGetEmails (Some 20) None None) w)
    as [[r1|e1] w1];
    destruct (execute (ToolInput.mk ActExtractTasks (Some 20) None None) w)
      as [[r2|e2] w2]; simpl;
    try destruct (ToolResult.success r1) eqn:Hs1;
    try destruct (ToolResult.emails r1) as [emails1|] eqn:He1;
    try destruct (ToolResult.success r2) eqn:Hs2;
    try destruct (ToolResult.tasks r2) as [tasks2|] eqn:Ht2; simpl;
    repeat split; try discriminate; try congruence;
    match goal with
    | H : Ok _ = Ok _ |- _ =>
        injection H as <- <-; eexists; repeat split; eauto
    end.
Qed.

Lemma first_two_steps_relay_the_tool_witness :
  fst (fetchEmailsStep Cases.refusingTool Scenario.world0)
  = Throw (ErrorObj "Failed to fetch emails") /\
  fst (extractTasksStep Cases.refusingTool
         (Context.mk None None None None) Scenario.world0)
  = Throw (ErrorObj "Failed to extract tasks").
Proof.
  pose proof (first_two_steps_relay_the_tool Cases.refusingTool
                (Context.mk None None None None) Scenario.world0) as H.
  destruct H as (_ & _ & _ & _ & H1 & H2 & _).
  split.
  - apply (H1 (ToolResult.mk false None None "no")); reflexivity.
  - apply (H2 (ToolResult.mk false None None "no")); reflexivity.
Defined.

(** X16. The last step appends exactly one entry to the execution log
    every time it runs, over any tool and whatever the context holds: the
    entry is stamped with the clock reading taken after the [listTasks]
    call and carries the message count of the context, 0 when the context
    has none. When the step returns, the entry has status success and the
    task count of the context (0 when it has none), and the summary's
    total is the length of the list the tool returned; when it throws,
    the entry has status error, the text of the exception and a task count
    of 0. Nothing else is changed beyond what the tool call did. *)
Theorem last_step_always_appends_one_entry
    (env : Env) (execute : ToolInput.t -> M ToolResult.t)
    (context : Context.t) (w : World) :
  let called := execute listTasksInput w in
  exists entry,
    snd (updateTaskListStep env execute context w)
    = afterLog entry (snd called) /\
    Log.timestamp entry = clock env (clockReads (snd called)) /\
    Log.emailsChecked entry = default 0 (Context.emailCount context) /\
    match fst (updateTaskListStep env execute context w) with
    | Ok summary =>
        Log.status entry = LogStatus.success /\
        Log.tasksExtracted entry = default 0 (Context.taskCount context) /\
        Log.error entry = None /\
        Summary.newTasks summary = Context.taskCount context /\
        exists result tasks,
          fst called = Ok result /\
          ToolResult.tasks result = Some tasks /\
          Summary.totalTasks summary = length tasks
    | Throw e =>
        Log.status entry = LogStatus.error /\
        Log.tasksExtracted entry = 0 /\
        Log.error entry = Some (errorText e)
    end.
Proof.
  unfold updateTaskListStep, listTasksInput, readClock, logExecution, afterLog;
    unfold_m.
  destruct (execute (ToolInput.mk ActListTasks None None None) w)
    as [[result|e] w1]; simpl.
  - destruct (ToolResult.success result).
    + destruct (ToolResult.tasks result) as [tasks|] eqn:Ht; simpl.
      * eexists. split; [reflexivity|]. simpl. repeat split. eauto.
      * eexists. split; [reflexivity|]. simpl. auto.
    + eexists. split; [reflexivity|]. simpl. auto.
  - eexists. split; [reflexivity|]. simpl. auto.
Qed.

Lemma other_actions_logs (env : Env) (input : ToolInput.t) (w : World) :
  ToolInput.action input <> ActExtractTasks ->
  executionLogs (snd (emailTool_execute env input w)) = executionLogs w.
Proof.
  intros Hact.
  destruct (other_actions_world env input w Hact)
    as (result & _ & [->|[->|(k & t & t' & _ & _ & _ & ->)]]); reflexivity.
Qed.

Lemma run_logs_cases (env : Env) (w : World) :
  exists r w',
    taskRefreshWorkflow_execute env w = (r, w') /\
    ((exists entry, executionLogs w' = executionLogs w ++ [entry]) \/
     executionLogs w' = executionLogs w).
Proof.
  unfold taskRefreshWorkflow_execute, runSteps, bind.
  destruct (fetch_cases env 20 w) as [(ms1 & emails1 & Hg1 & Hr1)|Hbad1].
  - rewrite (fetchEmailsStep_ok env w ms1 emails1 Hg1 Hr1). simpl.
    destruct (fetch_cases env 20 (afterFetch w))
      as [(ms2 & emails2 & Hg2 & Hr2)|Hbad2].
    + destruct (extractTasksStep_ok env
                  (Context.mk (Some emails1) (Some (length emails1)) None None)
                  (afterFetch w) ms2 emails2 Hg2 Hr2)
        as (tasks & w2 & Hstep2 & _ & _ & _ & Hl).
      rewrite Hstep2. simpl.
      destruct (updateTaskListStep_real_tool env
                  (Context.mk (Some emails1) (Some (length emails1))
                     (Some tasks) (Some (length tasks))) w2)
        as (text & Hstep3).
      rewrite Hstep3. eexists _, _. split; [reflexivity|].
      simpl. rewrite Hl. left. eauto.
    + rewrite (extractTasksStep_fails env _ (afterFetch w) Hbad2).
      eexists _, _. split; [reflexivity|]. right. reflexivity.
  - rewrite (fetchEmailsStep_fails env w Hbad1).
    eexists _, _. split; [reflexivity|]. right. reflexivity.
Qed.

(** X17. The execution log is append-only: no action of the tool touches
    it, and a run leaves every earlier entry in place, in order, adding at
    most one entry at the end; [getExecutionLogs] reads it without
    changing anything. *)
Theorem execution_log_is_append_only (env : Env) (w : World) :
  (forall input,
      executionLogs (snd (emailTool_execute env input w)) = executionLogs w) /\
  executionLogs w
    `prefix_of` executionLogs (snd (taskRefreshWorkflow_execute env w)) /\
  length (executionLogs (snd (taskRefreshWorkflow_execute env w)))
  <= S (length (executionLogs w)) /\
  (forall i entry,
      executionLogs w !! i = Some entry ->
      executionLogs (snd (taskRefreshWorkflow_execute env w)) !! i
      = Some entry) /\
  getExecutionLogs (snd (taskRefreshWorkflow_execute env w))
  = (Ok (executionLogs (snd (taskRefreshWorkflow_execute env w))),
     snd (taskRefreshWorkflow_execute env w)).
Proof.
  split.
  { intros input.
    assert (Hcases : ToolInput.action input = ActExtractTasks \/
                     ToolInput.action input <> ActExtractTasks)
      by (destruct (ToolInput.action input); auto; right; discriminate).
    destruct Hcases as [Hact|Hact].
    - unfold emailTool_execute. rewrite Hact. unfold bind.
      rewrite getEmails_run.
      destruct (match gmail env _ _ with ListFails => _ | Listed _ => _ end)
        as [emails|e]; simpl; [|reflexivity].
      destruct (extractAll_total env emails (afterFetch w))
        as (tasks & w' & Hx & _ & _ & Hl).
      rewrite Hx. simpl. exact Hl.
    - apply other_actions_logs. exact Hact. }
  destruct (run_logs_cases env w) as (r & w' & -> & [(entry & Hl)|Hl]);
    simpl; rewrite Hl.
  - split; [exists [entry]; reflexivity|].
    split; [rewrite length_app; simpl; lia|].
    split; [|unfold getExecutionLogs; rewrite Hl; reflexivity].
    intros i e Hi. apply lookup_app_l_Some. exact Hi.
  - split; [reflexivity|]. split; [lia|].
    split; [auto|unfold getExecutionLogs; rewrite Hl; reflexivity].
Qed.

(** X18. Nothing keys a task by its message. When the same message is
    extracted a second time and the clock has moved on, the second task
    gets an identifier of its own: afterwards the store holds both tasks,
    under different keys, with the same source message. *)
Theorem extracting_a_message_again_duplicates_its_task
    (env : Env) (email : Email.t) (w w1 w2 : World) (t1 t2 : Task.t) :
  extractTasksFromEmail env email w = (Ok (Some t1), w1) ->
  extractTasksFromEmail env email w1 = (Ok (Some t2), w2) ->
  clock env (clockReads w) <> clock env (clockReads w1) ->
  Task.id t1 <> Task.id t2 /\
  taskStore w2 !! Task.id t1 = Some t1 /\
  taskStore w2 !! Task.id t2 = Some t2 /\
  Task.emailId t1 = Email.id email /\
  Task.emailId t2 = Email.id email.
Proof.
  rewrite !extractTasksFromEmail_run.
  destruct (usableAnswer (model env (modelCalls w) email)) as [p1|];
    [|discriminate].
  intros [= <- <-].
  destruct (usableAnswer _) as [p2|]; [|discriminate].
  intros [= <- <-] Hclock.
  assert (Hne : makeTaskId (Email.id email) (clock env (clockReads w))
                <> makeTaskId (Email.id email)
                     (clock env (S (S (clockReads w))))).
  { intros Heq. apply makeTaskId_inj in Heq as [_ Heq]. apply Hclock.
    exact Heq. }
  simpl in *. split; [exact Hne|]. split.
  - rewrite lookup_insert_ne by congruence. apply lookup_insert_eq.
  - split; [apply lookup_insert_eq|]. auto.
Qed.

Lemma extracting_a_message_again_duplicates_its_task_witness :
  let first :=
    extractTasksFromEmail Scenario.envABC Scenario.mailB Scenario.world0 in
  let second :=
    extractTasksFromEmail Scenario.envABC Scenario.mailB (snd first) in
  let t1 := Scenario.taskOfB 1700000000000 1700000000001 in
  let t2 := Scenario.taskOfB 1700000000002 1700000000003 in
  Task.id t1 <> Task.id t2 /\
  taskStore (snd second) !! Task.id t1 = Some t1 /\
  taskStore (snd second) !! Task.id t2 = Some t2 /\
  Task.emailId t1 = Email.id Scenario.mailB /\
  Task.emailId t2 = Email.id Scenario.mailB.
Proof.
  intros first second t1 t2.
  apply (extracting_a_message_again_duplicates_its_task Scenario.envABC
           Scenario.mailB Scenario.world0 (snd first) (snd second) t1 t2).
  - vm_compute. reflexivity.
  - vm_compute. reflexivity.
  - vm_compute. discriminate.
Defined.

Lemma execution_log_is_append_only_witness :
  let w := snd (taskRefreshWorkflow_execute Scenario.envABC Scenario.world0) in
  executionLogs (snd (taskRefreshWorkflow_execute Scenario.envABC w)) !! 0
  = Some (Log.mk 1700000000002 2 1 LogStatus.success None).
Proof.
  intros w.
  apply (proj1 (proj2 (proj2 (proj2 (execution_log_is_append_only
                                       Scenario.envABC w))))).
  vm_compute. reflexivity.
Defined.

(* ===================================================================== *)
(** * The filter stated apart from its code, and the failing last step *)
(* ===================================================================== *)

(** ** Letter case, apart from [toLowerCase] *)
















(** ** The last step failing after an extraction *)



